(** * attack.py: adversarial-example generation driver

    A shallow embedding of [src/attack.py]: the command-line layer of the
    [__main__] block, the attack selector and the per-batch loop of [main].

    The classifier, the attack operators, the image folder and the two
    random-number generators are collaborators of the script; they enter the
    development as section variables (an oracle each).  Everything the
    script itself computes is written out: the option defaults and their
    [choices] checks, the parameter dictionaries, the name suffix, the
    clip bounds, the success mask, the counters and the output paths.

    Python [float] is IEEE binary64 and a torch [float32] tensor is IEEE
    binary32; both are modelled bit-exactly with the Standard Library's
    [spec_float] operations. *)

From Stdlib Require Import ZArith QArith Qabs Ascii String List Lia.
From Stdlib Require Import Floats.SpecFloat.
From stdpp Require Import gmap strings list pretty.

Local Open Scope Z_scope.
Local Open Scope string_scope.

(* ===================================================================== *)
(** ** Floating point *)
(* ===================================================================== *)

(** Python's [float] (binary64). *)
Module F64.
Definition prec : Z := 53.
Definition emax : Z := 1024.

(** [float(z)] for an integer: round to nearest, ties to even. *)
Definition of_Z (z : Z) : spec_float := binary_normalize prec emax z 0 false.

Definition div : spec_float -> spec_float -> spec_float := SFdiv prec emax.

(** The decimal literal [m / 10^k], e.g. [0.485] is [dec 485 3]: both
    operands are exact in binary64 and the division rounds once, so the
    result is the double nearest to the decimal, as the Python parser
    produces. *)
Definition dec (m : Z) (k : nat) : spec_float :=
  div (of_Z m) (of_Z (10 ^ Z.of_nat k)).

Definition zero : spec_float := S754_zero false.
Definition one : spec_float := of_Z 1.
Definition inf : spec_float := S754_infinity false.
End F64.

(** A torch [float32] scalar (binary32). *)
Module F32.
Definition prec : Z := 24.
Definition emax : Z := 128.

Definition of_Z (z : Z) : spec_float := binary_normalize prec emax z 0 false.

(** Conversion of a Python float to [float32], as [torch.as_tensor(...,
    dtype=torch.float32)] or a scalar operand of a [float32] tensor. *)
Definition of_F64 (x : spec_float) : spec_float :=
  match x with
  | S754_finite s m e =>
      binary_normalize prec emax (if s then Z.neg m else Z.pos m) e s
  | _ => x
  end.

Definition sub : spec_float -> spec_float -> spec_float := SFsub prec emax.
Definition div : spec_float -> spec_float -> spec_float := SFdiv prec emax.
End F32.

(** The real value of a finite float, for stating accuracy and range
    facts; infinities and NaN have none. *)
Definition SF2Q (x : spec_float) : option Q :=
  match x with
  | S754_zero _ => Some 0%Q
  | S754_finite s m e =>
      let v := (inject_Z (Z.pos m) * Qpower 2 e)%Q in
      Some (if s then Qopp v else v)
  | _ => None
  end.

(** [a <= b] and [a < b] on floats, false as soon as a NaN is involved. *)
Definition fle (a b : spec_float) : bool := SFleb a b.
Definition flt (a b : spec_float) : bool := SFltb a b.

Definition is_nan (x : spec_float) : bool :=
  match x with S754_nan => true | _ => false end.

(** [min()] and [max()] of a one-dimensional tensor, torch's reduction: a
    NaN element wins, otherwise the least (greatest) element. *)
Definition fmin2 (a b : spec_float) : spec_float :=
  if is_nan a then a else if is_nan b then b else if flt b a then b else a.
Definition fmax2 (a b : spec_float) : spec_float :=
  if is_nan a then a else if is_nan b then b else if flt a b then b else a.

Definition tensor_min (x : spec_float) (xs : list spec_float) : spec_float :=
  fold_left fmin2 xs x.
Definition tensor_max (x : spec_float) (xs : list spec_float) : spec_float :=
  fold_left fmax2 xs x.

(** *** Reference notions for accuracy statements *)

(** The two binary64 neighbours of a Python float. *)
Definition f64_succ : spec_float -> spec_float := SFsucc F64.prec F64.emax.
Definition f64_pred : spec_float -> spec_float := SFpred F64.prec F64.emax.

Definition Qlt_bool (a b : Q) : bool := negb (Qle_bool b a).

(** [v] is a binary64 nearest to the real number [x]: it is finite, it
    lies strictly between its two neighbours, and neither neighbour is
    closer to [x]. *)
Definition nearest_to (v : spec_float) (x : Q) : Prop :=
  exists q qp qs,
    SF2Q v = Some q /\ SF2Q (f64_pred v) = Some qp
    /\ SF2Q (f64_succ v) = Some qs
    /\ (qp < q)%Q /\ (q < qs)%Q
    /\ (Qabs (q - x) <= Qabs (qp - x))%Q
    /\ (Qabs (q - x) <= Qabs (qs - x))%Q.

Definition nearest_tob (v : spec_float) (x : Q) : bool :=
  match SF2Q v, SF2Q (f64_pred v), SF2Q (f64_succ v) with
  | Some q, Some qp, Some qs =>
      Qlt_bool qp q && Qlt_bool q qs
      && Qle_bool (Qabs (q - x)) (Qabs (qp - x))
      && Qle_bool (Qabs (q - x)) (Qabs (qs - x))
  | _, _, _ => false
  end.

(** [v] is finite and within [tol] of the real number [x]. *)
Definition close_to (tol : Q) (v : spec_float) (x : Q) : Prop :=
  exists q, SF2Q v = Some q /\ (Qabs (q - x) <= tol)%Q.

Definition close_tob (tol : Q) (v : spec_float) (x : Q) : bool :=
  match SF2Q v with
  | Some q => Qle_bool (Qabs (q - x)) tol
  | None => false
  end.

(* ===================================================================== *)
(** ** Python values and exceptions *)
(* ===================================================================== *)

(** The exceptions the script can end with.  [SystemExit 2] is argparse's
    usage error; [FileNotFoundError] is what opening an archive for
    writing raises when a directory of its path is missing. *)
Inductive PyExc :=
  | TypeError
  | UnboundLocalError (name : string)
  | ZeroDivisionError
  | OverflowError
  | ValueError
  | IndexError
  | FileNotFoundError
  | SystemExit (code : Z).

Inductive Result (A : Type) :=
  | Ok (a : A)
  | Raise (e : PyExc).
Arguments Ok {A} a.
Arguments Raise {A} e.

(** The values stored in an attack's keyword dictionary. *)
Inductive PyVal :=
  | VInt (z : Z)
  | VFloat (f : spec_float)
  | VBool (b : bool)
  | VPlaceholder (shape : list nat).

(* ===================================================================== *)
(** ** Command line ([__main__], lines 136-151) *)
(* ===================================================================== *)

(** [choices] of [-a/--attack] and of [-l/--ord]. *)
Definition attack_choices : list string :=
  ["lbfgs"; "fgsm"; "iter"; "m-iter"; "pgd"; "deepfool"; "jsma"; "cw"].
Definition ord_choices : list Z := [-1; 1; 2].

(** [args.attack] is a string when the option is given and the integer
    default otherwise. *)
Inductive attack_arg :=
  | AttackInt (z : Z)
  | AttackStr (s : string).

(** [args.ord] is an integer after parsing and [np.inf] (a float) once
    line 62 has replaced a negative value. *)
Inductive ord_val :=
  | OrdInt (z : Z)
  | OrdInf.

(** What the user typed: the two positional paths and, for each option,
    its value if the option is present ([type=int] already applied). *)
Record Argv := {
  argv_image_folder : string;
  argv_out_folder : string;
  argv_batch_size : option Z;
  argv_attack : option string;
  argv_eps : option Z;
  argv_ord : option Z
}.

Record Namespace := {
  image_folder : string;
  out_folder : string;
  batch_size : Z;
  attack : attack_arg;
  eps : Z;
  ord : ord_val;
  device : string
}.

(** argparse checks a supplied value against [choices] and exits with a
    usage error when it is not a member; a default is never checked. *)
Definition check_choice {A} `{EqDecision A} (choices : list A) (v : A)
  : Result A :=
  if decide (v ∈ choices) then Ok v else Raise (SystemExit 2).

Definition parse_args (cuda_available : bool) (a : Argv) : Result Namespace :=
  match
    match argv_attack a with
    | Some s =>
        match check_choice attack_choices s with
        | Ok s => Ok (AttackStr s)
        | Raise e => Raise e
        end
    | None => Ok (AttackInt 20)
    end
  with
  | Raise e => Raise e
  | Ok att =>
      match
        match argv_ord a with
        | Some o => check_choice ord_choices o
        | None => Ok (-1)
        end
      with
      | Raise e => Raise e
      | Ok o =>
          Ok {| image_folder := argv_image_folder a;
                out_folder := argv_out_folder a;
                batch_size := default 1 (argv_batch_size a);
                attack := att;
                eps := default 20 (argv_eps a);
                ord := OrdInt o;
                device := if cuda_available then "cuda" else "cpu" |}
      end
  end.

(* ===================================================================== *)
(** ** Small pieces of Python, numpy, torch and os.path *)
(* ===================================================================== *)

(** [args.attack == name]: an integer never equals a string. *)
Definition attack_eq (a : attack_arg) (name : string) : bool :=
  match a with
  | AttackStr s => bool_decide (s = name)
  | AttackInt _ => false
  end.

(** [args.attack + attack_name] (line 100). *)
Definition attack_add (a : attack_arg) (suffix : string) : Result string :=
  match a with
  | AttackStr s => Ok (s ++ suffix)
  | AttackInt _ => Raise TypeError
  end.

(** ['{}'.format(v)] for the values the script formats. *)
Definition str_int (z : Z) : string := pretty z.
Definition str_nat (n : nat) : string := pretty n.
Definition str_ord (o : ord_val) : string :=
  match o with
  | OrdInt z => str_int z
  | OrdInf => "inf"
  end.

Definition ord_to_val (o : ord_val) : PyVal :=
  match o with
  | OrdInt z => VInt z
  | OrdInf => VFloat F64.inf
  end.

(** [int / float]: the integer is converted first, which overflows
    beyond the binary64 range. *)
Definition int_to_float (z : Z) : Result spec_float :=
  match F64.of_Z z with
  | S754_infinity _ => Raise OverflowError
  | f => Ok f
  end.

Definition int_div_float (z : Z) (d : spec_float) : Result spec_float :=
  match int_to_float z with
  | Raise e => Raise e
  | Ok f =>
      match d with
      | S754_zero _ => Raise ZeroDivisionError
      | _ => Ok (F64.div f d)
      end
  end.

(** [n / m] on two counters (true division).  The counters stay far below
    2^53, where converting each operand is exact and the quotient is
    rounded once. *)
Definition int_truediv (n m : Z) : Result spec_float :=
  if (m =? 0)%Z then Raise ZeroDivisionError
  else Ok (F64.div (F64.of_Z n) (F64.of_Z m)).

(** [{**a, **b}]: the later dictionary wins on a shared key. *)
Definition dict_merge (a b : gmap string PyVal) : gmap string PyVal := b ∪ a.

(** torchvision's [Normalize(mean, std)] on a [float32] tensor with one
    value per channel (shape [(3, 1, 1)]): [(t - mean) / std], channel by
    channel, in [float32]. *)
Definition Normalize (mean std : list spec_float) (t : list spec_float)
  : list spec_float :=
  zip_with (fun v ms => F32.div (F32.sub v (F32.of_F64 (fst ms)))
                                (F32.of_F64 (snd ms)))
           t (zip mean std).

Definition imagenet_mean : list spec_float :=
  [F64.dec 485 3; F64.dec 456 3; F64.dec 406 3].
Definition imagenet_std : list spec_float :=
  [F64.dec 229 3; F64.dec 224 3; F64.dec 225 3].

Definition torch_zeros (n : nat) : list spec_float := replicate n (F32.of_Z 0).
Definition torch_ones (n : nat) : list spec_float := replicate n (F32.of_Z 1).

(** [t.min().item()] / [t.max().item()]: the [float32] value, widened
    exactly to a Python float. *)
Definition tensor_min_item (t : list spec_float) : spec_float :=
  match t with
  | [] => S754_nan
  | v :: vs => tensor_min v vs
  end.
Definition tensor_max_item (t : list spec_float) : spec_float :=
  match t with
  | [] => S754_nan
  | v :: vs => tensor_max v vs
  end.

(** [np.argmax] over one row: the first index of the greatest entry, a
    NaN counting as greatest; an empty row is a [ValueError]. *)
Fixpoint argmax_from (mp : spec_float) (best i : nat) (l : list spec_float)
  : nat :=
  match l with
  | [] => best
  | v :: l' =>
      if is_nan mp then best
      else if fle v mp then argmax_from mp best (S i) l'
      else argmax_from v i (S i) l'
  end.

Definition np_argmax (row : list spec_float) : Result nat :=
  match row with
  | [] => Raise ValueError
  | v :: l => Ok (argmax_from v 0%nat 1%nat l)
  end.

Fixpoint argmax_rows (rows : list (list spec_float)) : Result (list nat) :=
  match rows with
  | [] => Ok []
  | r :: rs =>
      match np_argmax r with
      | Raise e => Raise e
      | Ok i =>
          match argmax_rows rs with
          | Raise e => Raise e
          | Ok js => Ok (i :: js)
          end
      end
  end.

(** [a[mask]] with a boolean mask of the same length. *)
Fixpoint np_mask {A} (a : list A) (mask : list bool) : list A :=
  match a, mask with
  | x :: a', b :: mask' => if b then x :: np_mask a' mask' else np_mask a' mask'
  | _, _ => []
  end.

(** [src != dst], element by element. *)
Definition np_ne (src dst : list nat) : list bool :=
  zip_with (fun s d => negb (s =? d)%nat) src dst.

(** [np.zeros((1, 1000))] and the item assignment [t[0, i] = 1]; a column
    index in [-n, 0) counts from the end. *)
Definition np_zeros (rows cols : nat) : list (list spec_float) :=
  replicate rows (replicate cols F64.zero).

Definition np_setitem0 (t : list (list spec_float)) (i : Z) (v : spec_float)
  : Result (list (list spec_float)) :=
  match t with
  | [] => Raise IndexError
  | row :: rest =>
      let n := Z.of_nat (length row) in
      if (0 <=? i)%Z && (i <? n)%Z then Ok (<[Z.to_nat i := v]> row :: rest)
      else if (- n <=? i)%Z && (i <? 0)%Z
           then Ok (<[Z.to_nat (n + i) := v]> row :: rest)
      else Raise IndexError
  end.

(** [os.path.join(a, b)] (posixpath). *)
Definition starts_with_sep (s : string) : bool :=
  match s with
  | String c _ => bool_decide (c = "/"%char)
  | EmptyString => false
  end.

Fixpoint ends_with_sep (s : string) : bool :=
  match s with
  | EmptyString => false
  | String c EmptyString => bool_decide (c = "/"%char)
  | String _ s' => ends_with_sep s'
  end.

Definition os_path_join (a b : string) : string :=
  if starts_with_sep b then b
  else if bool_decide (a = "") || ends_with_sep a then a ++ b
  else a ++ "/" ++ b.

(** torch's [BatchSampler] ([drop_last=False]): indices are appended to
    the current batch, which is emitted when it reaches [bs]; a last,
    shorter batch is emitted at the end. *)
Fixpoint batch_sampler (bs : nat) (batch : list nat) (idxs : list nat)
  : list (list nat) :=
  match idxs with
  | [] => match batch with [] => [] | _ => [batch] end
  | i :: rest =>
      let batch' := (batch ++ [i])%list in
      if (length batch' =? bs)%nat then batch' :: batch_sampler bs [] rest
      else batch_sampler bs batch' rest
  end.

(* ===================================================================== *)
(** ** [main] (lines 32-133) *)
(* ===================================================================== *)

(** The cleverhans attack classes the selector instantiates. *)
Inductive AttackOp :=
  | FastGradientMethod
  | BasicIterativeMethod
  | MomentumIterativeMethod
  | MadryEtAl
  | SaliencyMapMethod
  | DeepFool
  | CarliniWagnerL2
  | LBFGS.

(** The locals of [main] that only some branches of the selector assign.
    A local that was never assigned is [None]; reading it raises
    [UnboundLocalError]. *)
Record Locals := {
  attack_name : string;
  attack_op : option AttackOp;
  attack_params : option (gmap string PyVal);
  target : option (list (list spec_float));
  y : option PyVal
}.

Definition read_local {A} (name : string) (v : option A) : Result A :=
  match v with
  | Some a => Ok a
  | None => Raise (UnboundLocalError name)
  end.

(** [t.shape] of a two-dimensional array. *)
Definition shape2 (t : list (list spec_float)) : list nat :=
  [length t; length (hd [] t)].

(** Line 62: [args.ord = np.inf if args.ord < 0 else args.ord]. *)
Definition resolve_ord (o : ord_val) : ord_val :=
  match o with
  | OrdInt z => if (z <? 0)%Z then OrdInf else OrdInt z
  | OrdInf => OrdInf
  end.

Definition set_ord (args : Namespace) (o : ord_val) : Namespace :=
  {| image_folder := image_folder args;
     out_folder := out_folder args;
     batch_size := batch_size args;
     attack := attack args;
     eps := eps args;
     ord := o;
     device := device args |}.

(** Lines 56-57: the clip bounds, from a black and a white pixel. *)
Definition normalize : list spec_float -> list spec_float :=
  Normalize imagenet_mean imagenet_std.
Definition clip_min : spec_float := tensor_min_item (normalize (torch_zeros 3)).
Definition clip_max : spec_float := tensor_max_item (normalize (torch_ones 3)).

(** [(x - mean) / std] over the rationals, channel by channel, with the
    constants of line 33 as the decimals they are written as: what
    [normalize] computes on a constant tensor, up to rounding. *)
Definition normalize_exact (x : Q) : list Q :=
  zip_with (fun m s => ((x - m) / s)%Q)
           [(485 # 1000)%Q; (456 # 1000)%Q; (406 # 1000)%Q]
           [(229 # 1000)%Q; (224 # 1000)%Q; (225 # 1000)%Q].

Definition eps_iter : Z := 20.
Definition nb_iter : Z := 10.

(** Lines 63-65. *)
Definition grad_params (eps_n : spec_float) (o : ord_val) : gmap string PyVal :=
  {[ "eps" := VFloat eps_n; "ord" := ord_to_val o ]}.
Definition common_params : gmap string PyVal :=
  {[ "clip_min" := VFloat clip_min; "clip_max" := VFloat clip_max ]}.
Definition iter_params (eps_iter_n : spec_float) : gmap string PyVal :=
  {[ "eps_iter" := VFloat eps_iter_n; "nb_iter" := VInt nb_iter ]}.

(** The suffix of the iterative attacks, [_L{}_eps{}_epsi{}_i{}]. *)
Definition grad_suffix (args : Namespace) : string :=
  "_L" ++ str_ord (ord args) ++ "_eps" ++ str_int (eps args).
Definition iter_suffix (args : Namespace) : string :=
  grad_suffix args ++ "_epsi" ++ str_int eps_iter ++ "_i" ++ str_int nb_iter.

(** Lines 67-98: the attack selector.  [draw] is the value that
    [np.random.randint(1000)] returns, used by the [lbfgs] branch only. *)
Definition select_attack (args : Namespace) (eps_n eps_iter_n : spec_float)
    (draw : Z) : Result Locals :=
  let a := attack args in
  let gp := grad_params eps_n (ord args) in
  let cp := common_params in
  let ip := iter_params eps_iter_n in
  if attack_eq a "fgsm" then
    Ok {| attack_name := grad_suffix args;
          attack_op := Some FastGradientMethod;
          attack_params := Some (dict_merge cp gp);
          target := None; y := None |}
  else if attack_eq a "iter" then
    Ok {| attack_name := iter_suffix args;
          attack_op := Some BasicIterativeMethod;
          attack_params := Some (dict_merge (dict_merge cp gp) ip);
          target := None; y := None |}
  else if attack_eq a "m-iter" then
    Ok {| attack_name := iter_suffix args;
          attack_op := Some MomentumIterativeMethod;
          attack_params := Some (dict_merge (dict_merge cp gp) ip);
          target := None; y := None |}
  else if attack_eq a "pgd" then
    Ok {| attack_name := iter_suffix args;
          attack_op := Some MadryEtAl;
          attack_params := Some (dict_merge (dict_merge cp gp) ip);
          target := None; y := None |}
  else if attack_eq a "jsma" then
    Ok {| attack_name := "";
          attack_op := Some SaliencyMapMethod;
          attack_params :=
            Some (dict_merge {[ "theta" := VFloat eps_n;
                                "symbolic_impl" := VBool false ]} cp);
          target := None; y := None |}
  else if attack_eq a "deepfool" then
    Ok {| attack_name := "";
          attack_op := Some DeepFool;
          attack_params := Some cp;
          target := None; y := None |}
  else if attack_eq a "cw" then
    Ok {| attack_name := "";
          attack_op := Some CarliniWagnerL2;
          attack_params := Some cp;
          target := None; y := None |}
  else if attack_eq a "lbfgs" then
    match np_setitem0 (np_zeros 1 1000) draw F64.one with
    | Raise e => Raise e
    | Ok tgt =>
        let ph := VPlaceholder (shape2 tgt) in
        Ok {| attack_name := "";
              attack_op := Some LBFGS;
              attack_params := Some (dict_merge {[ "y_target" := ph ]} cp);
              target := Some tgt; y := Some ph |}
    end
  else
    Ok {| attack_name := ""; attack_op := None; attack_params := None;
          target := None; y := None |}.

(** Lines 59-98 of [main]: the normalised budget, the norm order, the
    parameter dictionaries and the selector.  The result is [args] with
    [ord] resolved and the locals the selector has bound. *)
Definition attack_construction (args : Namespace) (draw : Z)
  : Result (Namespace * Locals) :=
  match int_div_float (eps args) (F64.of_Z 255) with
  | Raise e => Raise e
  | Ok eps_n =>
      let args := set_ord args (resolve_ord (ord args)) in
      match int_div_float eps_iter (F64.of_Z 255) with
      | Raise e => Raise e
      | Ok eps_iter_n =>
          match select_attack args eps_n eps_iter_n draw with
          | Raise e => Raise e
          | Ok L => Ok (args, L)
          end
      end
  end.

(** Line 131: ['{}_{}_src{}_dst{}.npz'.format(p, attack_name, s, d)]. *)
Definition sample_name (p name : string) (s d : nat) : string :=
  p ++ "_" ++ name ++ "_src" ++ str_nat s ++ "_dst" ++ str_nat d ++ ".npz".

Section Script.

(** An image tensor. *)
Variable Img : Type.

(** [ImageDataset(folder, transform=transform, return_paths=True)]: the
    entries of the folder, each a path and its transformed tensor. *)
Variable ImageDataset : string -> list (string * Img).

(** The order torch's random sampler would visit [n] items in. *)
Variable torch_randperm : nat -> list nat.

(** The value [np.random.randint(high)] returns in this run. *)
Variable np_random_randint : Z -> Z.

(** [torch.cuda.is_available()]. *)
Variable cuda_available : bool.

(** The classifier's logits for one image, and the adversarial image an
    attack graph yields for one image under the given keyword
    parameters and the array fed for the placeholder [y].  A batch is
    mapped sample by sample. *)
Variable tf_model : Img -> list spec_float.
Variable attack_generate :
  AttackOp -> gmap string PyVal -> list (list spec_float) -> Img -> Img.

(** The world of a run.  What the run leaves behind: the archives
    written (path to the arrays stored under their keys) and the success
    rates handed to the progress bar, latest first.  What it finds:
    [open_error path] is the exception, if any, that opening [path] for
    writing raises ([FileNotFoundError] when the output folder, or another
    directory of the path, is missing).  The script creates no directory,
    so this answer does not change during a run. *)
Record World := {
  fs : gmap string (gmap string Img);
  postfix : list spec_float;
  open_error : string -> option PyExc
}.

Definition M (A : Type) : Type := World -> Result A * World.

Definition ret {A} (a : A) : M A := fun w => (Ok a, w).
Definition lift {A} (r : Result A) : M A := fun w => (r, w).
Definition bind {A B} (m : M A) (k : A -> M B) : M B :=
  fun w =>
    match m w with
    | (Ok a, w') => k a w'
    | (Raise e, w') => (Raise e, w')
    end.

Notation "'let!' x ':=' m 'in' k" := (bind m (fun x => k))
  (at level 10, x name, m at level 100, k at level 200, only parsing).

(** [np.savez_compressed(path, img=a)]: the file is opened for writing,
    which raises when the path cannot be opened and then leaves nothing
    behind; otherwise one archive with the single key [img] is written,
    replacing an existing file at [path]. *)
Definition savez_compressed (path : string) (a : Img) : M unit :=
  fun w =>
    match open_error w path with
    | Some e => (Raise e, w)
    | None =>
        (Ok tt, {| fs := <[ path := {[ "img" := a ]} ]> (fs w);
                   postfix := postfix w;
                   open_error := open_error w |})
    end.

Definition set_postfix (r : spec_float) : M unit :=
  fun w => (Ok tt, {| fs := fs w; postfix := r :: postfix w;
                      open_error := open_error w |}).

(** [DataLoader(dataset, shuffle, batch_size)]: the batches of indices.
    A batch size below one is refused when the loader is built. *)
Definition DataLoader (n : nat) (shuffle : bool) (bs : Z)
  : Result (list (list nat)) :=
  if (bs <=? 0)%Z then Raise ValueError
  else
    let sampler := if shuffle then torch_randperm n else seq 0 n in
    Ok (batch_sampler (Z.to_nat bs) [] sampler).

(** Fetching and collating one batch: the paths and the tensors. *)
Fixpoint fetch (dataset : list (string * Img)) (idxs : list nat)
  : Result (list string * list Img) :=
  match idxs with
  | [] => Ok ([], [])
  | i :: rest =>
      match dataset !! i with
      | None => Raise IndexError
      | Some (p, x) =>
          match fetch dataset rest with
          | Raise e => Raise e
          | Ok (ps, xs) => Ok (p :: ps, x :: xs)
          end
      end
  end.

(** Lines 130-133: the saving loop over the zipped successful samples. *)
Fixpoint save_samples (out name : string) (paths : list string)
    (advs : list Img) (srcs dsts : list nat) : M unit :=
  match paths, advs, srcs, dsts with
  | p :: paths', a :: advs', s :: srcs', d :: dsts' =>
      let path := sample_name p name s d in
      let path := os_path_join out path in
      let! _ := savez_compressed path a in
      save_samples out name paths' advs' srcs' dsts'
  | _, _, _, _ => ret tt
  end.

(** Lines 111-133: one iteration of the loop, from the counters before
    the batch to the counters after it. *)
Definition batch_step (args : Namespace) (L : Locals) (name : string)
    (op : AttackOp) (params : gmap string PyVal)
    (dataset : list (string * Img))
    (cnt : Z * Z) (idxs : list nat) : M (Z * Z) :=
  let '(n_success, n_processed) := cnt in
  let! b := lift (fetch dataset idxs) in
  let '(paths, x) := b in
  let! _ := lift (read_local "y" (y L)) in
  let! tgt := lift (read_local "target" (target L)) in
  let z := map tf_model x in
  let adv_x := map (attack_generate op params tgt) x in
  let adv_z := map tf_model adv_x in
  let! src := lift (argmax_rows z) in
  let! dst := lift (argmax_rows adv_z) in
  let success := np_ne src dst in
  let success_paths := np_mask paths success in
  let success_adv_x := np_mask adv_x success in
  let success_src := np_mask src success in
  let success_dst := np_mask dst success in
  let n_success := (n_success + Z.of_nat (length success_adv_x))%Z in
  let n_processed := (n_processed + Z.of_nat (length x))%Z in
  let! r := lift (int_truediv n_success n_processed) in
  let! _ := set_postfix r in
  let! _ := save_samples (out_folder args) name
         success_paths success_adv_x success_src success_dst in
  ret (n_success, n_processed).

Fixpoint batch_loop (args : Namespace) (L : Locals) (name : string)
    (op : AttackOp) (params : gmap string PyVal)
    (dataset : list (string * Img))
    (cnt : Z * Z) (batches : list (list nat)) : M (Z * Z) :=
  match batches with
  | [] => ret cnt
  | idxs :: rest =>
      let! cnt' := batch_step args L name op params dataset cnt idxs in
      batch_loop args L name op params dataset cnt' rest
  end.

(** [main].  Loading the classifier and building the session and the
    graph (lines 44-53 and 104-106) are the collaborators' business and
    are taken to succeed; the text printed on line 102 is not kept, only
    its read of [attack_params]. *)
Definition main (args : Namespace) : M unit :=
  (* lines 40-42 *)
  let dataset := ImageDataset (image_folder args) in
  let! dataloader :=
    lift (DataLoader (length dataset) false (batch_size args)) in
  (* lines 56-98 *)
  let! c := lift (attack_construction args (np_random_randint 1000)) in
  let '(args, L) := c in
  (* line 100 *)
  let! name := lift (attack_add (attack args) (attack_name L)) in
  (* line 102 *)
  let! _ := lift (read_local "attack_params" (attack_params L)) in
  (* line 104 *)
  let! op := lift (read_local "attack_op" (attack_op L)) in
  let! params := lift (read_local "attack_params" (attack_params L)) in
  (* lines 108-133 *)
  let! _ := batch_loop args L name op params dataset (0, 0)%Z dataloader in
  ret tt.

(** The [__main__] block. *)
Definition script (a : Argv) : M unit :=
  let! args := lift (parse_args cuda_available a) in
  main args.

(** A world in which nothing has been written or shown yet and every
    path can be opened for writing. *)
Definition empty_world : World :=
  {| fs := ∅; postfix := []; open_error := fun _ => None |}.

(** The same, without the output folder: no path can be opened. *)
Definition no_folder_world : World :=
  {| fs := ∅; postfix := []; open_error := fun _ => Some FileNotFoundError |}.

(** *** Reference notions used in the statements *)

(** A sample is flipped when the top-1 class of the adversarial image
    differs from the top-1 class of the original. *)
Definition flipped (op : AttackOp) (params : gmap string PyVal)
    (tgt : list (list spec_float)) (x : Img) : bool :=
  match np_argmax (tf_model x),
        np_argmax (tf_model (attack_generate op params tgt x)) with
  | Ok s, Ok d => negb (s =? d)%nat
  | _, _ => false
  end.

(** The images of the first [k] batches, in the order they were seen. *)
Definition batch_images (dataset : list (string * Img)) (idxs : list nat)
  : list Img :=
  omap (fun i => snd <$> dataset !! i) idxs.

Definition seen (dataset : list (string * Img)) (batches : list (list nat))
    (k : nat) : list Img :=
  concat (map (batch_images dataset) (take k batches)).

(** Successes among, and size of, a list of samples. *)
Definition n_flipped (op : AttackOp) (params : gmap string PyVal)
    (tgt : list (list spec_float)) (xs : list Img) : Z :=
  Z.of_nat (length (List.filter (flipped op params tgt) xs)).

Definition success_rate (op : AttackOp) (params : gmap string PyVal)
    (tgt : list (list spec_float)) (xs : list Img) : spec_float :=
  F64.div (F64.of_Z (n_flipped op params tgt xs))
          (F64.of_Z (Z.of_nat (length xs))).

End Script.


Arguments fs {Img} w.
Arguments postfix {Img} w.
Arguments open_error {Img} w.
Arguments empty_world {Img}.
Arguments no_folder_world {Img}.

(* ===================================================================== *)
(** ** Reference tables and sample collaborators *)
(* ===================================================================== *)

(** The keys each attack's parameter mapping must have (the selector's
    table). *)
Definition clip_keys : gset string := {[ "clip_min"; "clip_max" ]}.

Definition table_keys (name : string) : gset string :=
  if bool_decide (name = "fgsm") then {[ "eps"; "ord" ]} ∪ clip_keys
  else if bool_decide (name = "iter") || bool_decide (name = "m-iter")
          || bool_decide (name = "pgd")
       then {[ "eps"; "ord"; "eps_iter"; "nb_iter" ]} ∪ clip_keys
  else if bool_decide (name = "jsma")
       then {[ "theta"; "symbolic_impl" ]} ∪ clip_keys
  else if bool_decide (name = "deepfool") || bool_decide (name = "cw")
       then clip_keys
  else if bool_decide (name = "lbfgs") then {[ "y_target" ]} ∪ clip_keys
  else ∅.

(** A row of [n] entries, all 0 except a 1 at position [k]. *)
Definition one_hot_row (n k : nat) : list spec_float :=
  map (fun j => if (j =? k)%nat then F64.one else F64.zero) (seq 0 n).

(** The attacks that take the perturbation budget and the norm order. *)
Definition grad_attacks : list string := ["fgsm"; "iter"; "m-iter"; "pgd"].

(** A small concrete instance of the collaborators: three images, named
    by a number; a classifier with three classes whose top class is the
    image number modulo 3; an attack that leaves odd images alone and
    moves an even image by one more than the hot index of the target it
    is fed. *)
Module Sample.
Definition dataset (folder : string) : list (string * nat) :=
  [("a.jpg", 1%nat); ("b.jpg", 2%nat); ("c.jpg", 3%nat)].

Definition one_image (folder : string) : list (string * nat) :=
  [("a.jpg", 1%nat)].

Definition model (x : nat) : list spec_float :=
  map (fun c => if (c =? x mod 3)%nat then F64.of_Z 5 else F64.of_Z 2)
      (seq 0 3).

Fixpoint hot_index (row : list spec_float) : nat :=
  match row with
  | [] => 0%nat
  | v :: row' => if SFeqb v F64.one then 0%nat else S (hot_index row')
  end.

Definition generate (op : AttackOp) (params : gmap string PyVal)
    (tgt : list (list spec_float)) (x : nat) : nat :=
  if Nat.even x then (x + S (hot_index (hd [] tgt)))%nat else x.

Definition sequential (n : nat) : list nat := seq 0 n.
Definition reversed (n : nat) : list nat := rev (seq 0 n).

Definition argv (name : option string) (bs : Z) : Argv :=
  {| argv_image_folder := "imgs"; argv_out_folder := "out";
     argv_batch_size := Some bs; argv_attack := name;
     argv_eps := Some 20; argv_ord := None |}.

(** One run of the script on the three-image folder. *)
Definition run (randperm : nat -> list nat) (draw : Z) (a : Argv)
  : Result unit * World nat :=
  script nat dataset randperm (fun _ => draw) false model generate a
         empty_world.

(** One run on the folder with a single image. *)
Definition run_one (draw : Z) (a : Argv) : Result unit * World nat :=
  script nat one_image sequential (fun _ => draw) false model generate a
         empty_world.

(** The state [main] is in when an lbfgs run enters its loop. *)
Definition lbfgs_args : Namespace :=
  {| image_folder := "imgs"; out_folder := "out"; batch_size := 2;
     attack := AttackStr "lbfgs"; eps := 20; ord := OrdInf;
     device := "cpu" |}.

Definition lbfgs_target (draw : Z) : list (list spec_float) :=
  [one_hot_row 1000 (Z.to_nat draw)].

Definition lbfgs_params : gmap string PyVal :=
  dict_merge {[ "y_target" := VPlaceholder [1%nat; 1000%nat] ]}
             common_params.

Definition lbfgs_locals (draw : Z) : Locals :=
  {| attack_name := "";
     attack_op := Some LBFGS;
     attack_params := Some lbfgs_params;
     target := Some (lbfgs_target draw);
     y := Some (VPlaceholder [1%nat; 1000%nat]) |}.

(** The loop of that run over the three images, in batches of two. *)
Definition lbfgs_loop (draw : Z) : Result (Z * Z) * World nat :=
  batch_loop nat model generate lbfgs_args (lbfgs_locals draw) "lbfgs" LBFGS
             lbfgs_params (dataset "imgs") (0, 0)%Z
             [[0%nat; 1%nat]; [2%nat]] empty_world.
End Sample.

(* ===================================================================== *)
(** ** [imshow] (lines 19-29) *)
(* ===================================================================== *)

(** Python float product and sum. *)
Definition f64_mul : spec_float -> spec_float -> spec_float :=
  SFmul F64.prec F64.emax.
Definition f64_add : spec_float -> spec_float -> spec_float :=
  SFadd F64.prec F64.emax.

(** [np.maximum] and [np.minimum] on two scalars: the first operand wins
    when it is at least (at most) the second, or is a NaN. *)
Definition np_maximum (a b : spec_float) : spec_float :=
  if fle b a || is_nan a then a else b.
Definition np_minimum (a b : spec_float) : spec_float :=
  if fle a b || is_nan a then a else b.

(** [np.clip(x, lo, hi)], which numpy defines as
    [np.minimum(hi, np.maximum(x, lo))]. *)
Definition np_clip (x lo hi : spec_float) : spec_float :=
  np_minimum hi (np_maximum x lo).

(** Transposition of a matrix given as a list of rows. *)
Fixpoint transpose {A} (m : list (list A)) : list (list A) :=
  match m with
  | [] => []
  | row :: rest =>
      match rest with
      | [] => map (fun x => [x]) row
      | _ => zip_with cons row (transpose rest)
      end
  end.

(** [inp.transpose((1, 2, 0))]: from channel planes (C, H, W) to rows of
    pixels (H, W, C). *)
Definition transpose_1_2_0 (t : list (list (list spec_float)))
  : list (list (list spec_float)) :=
  map transpose (transpose t).

(** [std * px + mean] on the channel axis of one pixel, in binary64.  The
    three constants broadcast against three channels or against one;
    any other channel count is numpy's broadcasting error. *)
Definition denormalize_pixel (px : list spec_float) : Result (list spec_float) :=
  let sm := zip imagenet_std imagenet_mean in
  match px with
  | [v] => Ok (map (fun c => f64_add (f64_mul (fst c) v) (snd c)) sm)
  | [_; _; _] =>
      Ok (zip_with (fun c v => f64_add (f64_mul (fst c) v) (snd c)) sm px)
  | _ => Raise ValueError
  end.

Fixpoint map_result {A B} (f : A -> Result B) (l : list A) : Result (list B) :=
  match l with
  | [] => Ok []
  | a :: l' =>
      match f a with
      | Raise e => Raise e
      | Ok b =>
          match map_result f l' with
          | Raise e => Raise e
          | Ok bs => Ok (b :: bs)
          end
      end
  end.

(** What [imshow] hands to matplotlib: the array given to [plt.imshow]
    and the title, set only when one is passed. *)
Record Figure := {
  fig_image : list (list (list spec_float));
  fig_title : option string
}.

(** [imshow(inp, title)] on a tensor given as its channel planes
    (shape [(C, H, W)]).  Line 24 multiplies the transposed array, of
    shape [(H, W, C)], by the three constants: numpy refuses that by the
    shapes alone unless [C] is 3 or 1, whether or not there is a pixel.
    Line 26 hands the clipped array to [plt.imshow], which refuses an
    image without pixels ([H] or [W] is 0) before the title is set. *)
Definition imshow (inp : list (list (list spec_float))) (title : option string)
  : Result Figure :=
  let channels := length inp in
  let inp := transpose_1_2_0 inp in
  if negb ((channels =? 1)%nat || (channels =? 3)%nat) then Raise ValueError
  else
    match map_result (map_result denormalize_pixel) inp with
    | Raise e => Raise e
    | Ok inp =>
        let inp :=
          map (map (map (fun v => np_clip v (F64.of_Z 0) (F64.of_Z 1))))
              inp in
        match concat inp with
        | [] => Raise ValueError
        | _ => Ok {| fig_image := inp; fig_title := title |}
        end
    end.

(** torchvision's [ToTensor] on one 8-bit level: the level as a
    [float32], divided by 255. *)
Definition ToTensor_level (k : Z) : spec_float :=
  F32.div (F32.of_Z k) (F32.of_Z 255).

(** A string made of decimal digits only. *)
Definition is_digit (c : ascii) : bool :=
  (48 <=? nat_of_ascii c)%nat && (nat_of_ascii c <=? 57)%nat.

Fixpoint all_digits (s : string) : bool :=
  match s with
  | EmptyString => true
  | String c s' => is_digit c && all_digits s'
  end.

(* ===================================================================== *)
(** ** Reference notions for the files a run writes *)
(* ===================================================================== *)

Section Written.

Variable Img : Type.
Variable tf_model : Img -> list spec_float.
Variable attack_generate :
  AttackOp -> gmap string PyVal -> list (list spec_float) -> Img -> Img.

(** The dataset entries a batch of indices selects. *)
Definition batch_entries (dataset : list (string * Img)) (idxs : list nat)
  : list (string * Img) :=
  omap (fun i => dataset !! i) idxs.

(** The archive one sample gives rise to: none when its class is kept,
    and the adversarial array under the conventional name when its class
    moves from [s] to [d]. *)
Definition sample_write (out name : string) (op : AttackOp)
    (params : gmap string PyVal) (tgt : list (list spec_float))
    (e : string * Img) : list (string * Img) :=
  let adv := attack_generate op params tgt (snd e) in
  match np_argmax (tf_model (snd e)), np_argmax (tf_model adv) with
  | Ok s, Ok d =>
      if (s =? d)%nat then []
      else [(os_path_join out (sample_name (fst e) name s d), adv)]
  | _, _ => []
  end.

(** Writing a list of archives, in order. *)
Definition write_all (l : list (string * Img))
    (m : gmap string (gmap string Img)) : gmap string (gmap string Img) :=
  fold_left (fun m pa => <[ fst pa := {[ "img" := snd pa ]} ]> m) l m.

End Written.

(** Concrete inputs for the further facts: a tensor of one row with a
    black and a white pixel, as the transform normalises them; a folder
    without images; a world that already holds an archive. *)
Module SampleMore.
Definition level_pixel (k : Z) : list spec_float :=
  Normalize imagenet_mean imagenet_std (replicate 3 (ToTensor_level k)).

Definition tensor : list (list (list spec_float)) :=
  map (fun c => [[nth c (level_pixel 0) F64.zero;
                  nth c (level_pixel 255) F64.zero]])
      [0%nat; 1%nat; 2%nat].

Definition figure : Figure :=
  match imshow tensor (Some "sample") with
  | Ok f => f
  | Raise _ => {| fig_image := []; fig_title := None |}
  end.

Definition no_images (folder : string) : list (string * nat) := [].

Definition old_world : World nat :=
  {| fs := {[ "out/keep.npz" := {[ "img" := 9%nat ]} ]}; postfix := [];
     open_error := fun _ => None |}.

Definition iter_args : Namespace :=
  {| image_folder := "imgs"; out_folder := "out"; batch_size := 1;
     attack := AttackStr "pgd"; eps := 8; ord := OrdInt 2; device := "cpu" |}.
End SampleMore.

(* ===================================================================== *)
(** ** Facts about the command line and the attack construction *)
(* ===================================================================== *)

Ltac dict_unfold :=
  unfold dict_merge, common_params, grad_params, iter_params.

Ltac dict_lookup := dict_unfold; simplify_map_eq; reflexivity.

Ltac dict_dom :=
  dict_unfold; unfold table_keys, clip_keys; cbn [bool_decide]; set_solver.

(** Splits [name ∈ attack_choices] into its eight cases. *)
Ltac attack_cases H :=
  unfold attack_choices in H;
  repeat (apply elem_of_cons in H as [H|H]; [subst | ]);
  [ .. | apply elem_of_nil in H; destruct H ].

(** Runs the selector's chain of comparisons on a known name. *)
Ltac select_branch :=
  cbn [attack_eq];
  repeat (rewrite bool_decide_eq_false_2 by discriminate);
  rewrite bool_decide_eq_true_2 by reflexivity.

Lemma parse_args_attack (c : bool) (a : Argv) (args : Namespace) (name : string) :
  argv_attack a = Some name -> parse_args c a = Ok args ->
  attack args = AttackStr name /\ name ∈ attack_choices.
Proof.
  unfold parse_args, check_choice. intros ->.
  destruct (decide (name ∈ attack_choices)) as [Hin|Hout]; [|discriminate].
  destruct (argv_ord a) as [o|].
  - destruct (decide (o ∈ ord_choices)); [|discriminate].
    intros [= <-]. split; [reflexivity | exact Hin].
  - intros [= <-]. split; [reflexivity | exact Hin].
Qed.

Lemma parse_args_reject (c : bool) (a : Argv) (name : string) :
  argv_attack a = Some name -> name ∉ attack_choices ->
  parse_args c a = Raise (SystemExit 2).
Proof.
  unfold parse_args, check_choice. intros -> Hout.
  destruct (decide (name ∈ attack_choices)); [contradiction | reflexivity].
Qed.

Lemma parse_args_default_attack (c : bool) (a : Argv) (args : Namespace) :
  argv_attack a = None -> parse_args c a = Ok args ->
  attack args = AttackInt 20.
Proof.
  unfold parse_args, check_choice. intros ->.
  destruct (argv_ord a) as [o|].
  - destruct (decide (o ∈ ord_choices)); [|discriminate].
    intros [= <-]. reflexivity.
  - intros [= <-]. reflexivity.
Qed.

Lemma parse_args_eps (c : bool) (a : Argv) (args : Namespace) :
  parse_args c a = Ok args -> eps args = default 20 (argv_eps a).
Proof.
  unfold parse_args. intros H.
  destruct (argv_attack a) as [s|];
    [destruct (check_choice attack_choices s); [|discriminate]|];
    (destruct (argv_ord a) as [o|];
     [destruct (check_choice ord_choices o); [|discriminate]|]);
    injection H as <-; reflexivity.
Qed.

Lemma parse_args_ord (c : bool) (a : Argv) (args : Namespace) :
  parse_args c a = Ok args ->
  match argv_ord a with
  | Some o => o ∈ ord_choices /\ ord args = OrdInt o
  | None => ord args = OrdInt (-1)
  end.
Proof.
  unfold parse_args. intros H.
  destruct (argv_attack a) as [s|];
    [destruct (check_choice attack_choices s); [|discriminate]|];
    (destruct (argv_ord a) as [o|]; unfold check_choice in H;
     [destruct (decide (o ∈ ord_choices)) as [Ho|]; [|discriminate]|]);
    injection H as <-; auto.
Qed.

(** The one-hot row is what the item assignment produces. *)
Lemma insert_replicate_one_hot (n k : nat) :
  (k < n)%nat ->
  <[k := F64.one]> (replicate n F64.zero) = one_hot_row n k.
Proof.
  intros Hk. apply list_eq. intros j. unfold one_hot_row.
  rewrite list_lookup_fmap.
  destruct (decide (j = k)) as [->|Hne].
  - rewrite list_lookup_insert_eq by (rewrite length_replicate; lia).
    rewrite lookup_seq_lt by lia. simpl. rewrite Nat.eqb_refl. reflexivity.
  - rewrite list_lookup_insert_ne by congruence.
    destruct (decide (j < n)%nat) as [Hlt|Hge].
    + rewrite lookup_replicate_2 by lia. rewrite lookup_seq_lt by lia.
      simpl. destruct (Nat.eqb_spec j k); [congruence | reflexivity].
    + rewrite lookup_seq_ge by lia. apply lookup_replicate_None. lia.
Qed.

Lemma length_one_hot_row (n k : nat) : length (one_hot_row n k) = n.
Proof. unfold one_hot_row. rewrite length_map, length_seq. reflexivity. Qed.

Lemma lookup_one_hot_row (n k j : nat) :
  (j < n)%nat ->
  one_hot_row n k !! j = Some (if (j =? k)%nat then F64.one else F64.zero).
Proof.
  intros Hj. unfold one_hot_row. rewrite list_lookup_fmap.
  rewrite lookup_seq_lt by lia. reflexivity.
Qed.

Lemma np_setitem0_one_hot (draw : Z) :
  (0 <= draw < 1000)%Z ->
  np_setitem0 (np_zeros 1 1000) draw F64.one
  = Ok [one_hot_row 1000 (Z.to_nat draw)].
Proof.
  intros Hd. unfold np_setitem0, np_zeros.
  change (replicate 1 (replicate 1000 F64.zero)) with [replicate 1000 F64.zero].
  cbv beta iota zeta. rewrite length_replicate.
  replace (0 <=? draw)%Z with true by (symmetry; apply Z.leb_le; lia).
  replace (draw <? Z.of_nat 1000)%Z with true by (symmetry; apply Z.ltb_lt; lia).
  cbn [andb]. rewrite insert_replicate_one_hot by lia. reflexivity.
Qed.

Lemma shape2_one_hot (k : nat) : shape2 [one_hot_row 1000 k] = [1%nat; 1000%nat].
Proof. unfold shape2. cbn [hd length]. rewrite length_one_hot_row. reflexivity. Qed.

(** What the selector binds for each of the eight names. *)
Lemma select_attack_table (name : string) (args : Namespace)
    (eps_n eps_iter_n : spec_float) (draw : Z) :
  name ∈ attack_choices -> attack args = AttackStr name ->
  (0 <= draw < 1000)%Z ->
  exists L m,
    select_attack args eps_n eps_iter_n draw = Ok L
    /\ attack_params L = Some m
    /\ is_Some (attack_op L)
    /\ dom m = table_keys name
    /\ m !! "clip_min" = Some (VFloat clip_min)
    /\ m !! "clip_max" = Some (VFloat clip_max)
    /\ (name = "jsma" -> m !! "symbolic_impl" = Some (VBool false))
    /\ (name = "lbfgs" ->
        target L = Some [one_hot_row 1000 (Z.to_nat draw)]
        /\ y L = Some (VPlaceholder [1%nat; 1000%nat])
        /\ m !! "y_target" = Some (VPlaceholder [1%nat; 1000%nat])).
Proof.
  intros Hin Ha Hd. unfold select_attack. rewrite Ha.
  attack_cases Hin; select_branch.
  - rewrite np_setitem0_one_hot by exact Hd. rewrite shape2_one_hot.
    eexists _, _. split; [reflexivity|]. split; [reflexivity|].
    split; [eexists; reflexivity|]. split; [dict_dom|].
    split; [dict_lookup|]. split; [dict_lookup|].
    split; [discriminate|]. intros _.
    split; [reflexivity|]. split; [reflexivity|]. dict_lookup.
  - eexists _, _. split; [reflexivity|]. split; [reflexivity|].
    split; [eexists; reflexivity|]. split; [dict_dom|].
    split; [dict_lookup|]. split; [dict_lookup|].
    split; discriminate.
  - eexists _, _. split; [reflexivity|]. split; [reflexivity|].
    split; [eexists; reflexivity|]. split; [dict_dom|].
    split; [dict_lookup|]. split; [dict_lookup|].
    split; discriminate.
  - eexists _, _. split; [reflexivity|]. split; [reflexivity|].
    split; [eexists; reflexivity|]. split; [dict_dom|].
    split; [dict_lookup|]. split; [dict_lookup|].
    split; discriminate.
  - eexists _, _. split; [reflexivity|]. split; [reflexivity|].
    split; [eexists; reflexivity|]. split; [dict_dom|].
    split; [dict_lookup|]. split; [dict_lookup|].
    split; discriminate.
  - eexists _, _. split; [reflexivity|]. split; [reflexivity|].
    split; [eexists; reflexivity|]. split; [dict_dom|].
    split; [dict_lookup|]. split; [dict_lookup|].
    split; discriminate.
  - eexists _, _. split; [reflexivity|]. split; [reflexivity|].
    split; [eexists; reflexivity|]. split; [dict_dom|].
    split; [dict_lookup|]. split; [dict_lookup|].
    split; [intros _; dict_lookup | discriminate].
  - eexists _, _. split; [reflexivity|]. split; [reflexivity|].
    split; [eexists; reflexivity|]. split; [dict_dom|].
    split; [dict_lookup|]. split; [dict_lookup|].
    split; discriminate.
Qed.

Lemma Qlt_bool_lt (a b : Q) : Qlt_bool a b = true -> (a < b)%Q.
Proof.
  unfold Qlt_bool. intros H. apply negb_true_iff in H.
  apply Qnot_le_lt. intros Hle. apply Qle_bool_iff in Hle. congruence.
Qed.

Lemma nearest_tob_ok (v : spec_float) (x : Q) :
  nearest_tob v x = true -> nearest_to v x.
Proof.
  unfold nearest_tob, nearest_to.
  destruct (SF2Q v) as [q|]; [|discriminate].
  destruct (SF2Q (f64_pred v)) as [qp|]; [|discriminate].
  destruct (SF2Q (f64_succ v)) as [qs|]; [|discriminate].
  intros H. apply andb_true_iff in H as [H H4].
  apply andb_true_iff in H as [H H3]. apply andb_true_iff in H as [H1 H2].
  exists q, qp, qs. repeat split; try reflexivity.
  - apply Qlt_bool_lt; exact H1.
  - apply Qlt_bool_lt; exact H2.
  - apply Qle_bool_iff; exact H3.
  - apply Qle_bool_iff; exact H4.
Qed.

Lemma close_tob_ok (tol : Q) (v : spec_float) (x : Q) :
  close_tob tol v x = true -> close_to tol v x.
Proof.
  unfold close_tob, close_to. destruct (SF2Q v) as [q|]; [|discriminate].
  intros H. exists q. split; [reflexivity|]. apply Qle_bool_iff. exact H.
Qed.

Lemma Forall2_close_to (tol : Q) (vs : list spec_float) (xs : list Q) :
  length vs = length xs ->
  forallb (fun p => close_tob tol (fst p) (snd p)) (zip vs xs) = true ->
  Forall2 (close_to tol) vs xs.
Proof.
  revert xs. induction vs as [|v vs IH]; intros [|x xs] Hlen H;
    try discriminate; [constructor|].
  cbn in H. apply andb_true_iff in H as [Hv H].
  constructor; [apply close_tob_ok; exact Hv | apply IH; [|exact H]].
  cbn in Hlen. congruence.
Qed.

(** For every integer of the 0-255 scale, [eps / 255.] is a binary64
    nearest to the rational [eps/255]. *)
Lemma eps_nearest_checked :
  forallb
    (fun e : Z =>
       nearest_tob (F64.div (F64.of_Z e) (F64.of_Z 255))
                   (inject_Z e / 255)%Q)
    (map Z.of_nat (seq 0 256)) = true.
Proof. vm_compute. reflexivity. Qed.

(** The budget [eps / 255.] for every integer of the 0-255 scale, checked
    value by value: the conversion does not overflow, the quotient lies
    between 0 and 1 (as a float and as a real number), and its real value
    is within a relative 2^-53 of the rational [eps/255], i.e. it is that
    rational rounded once to binary64. *)
Lemma eps_scale_checked :
  forallb
    (fun e : Z =>
       let v := F64.div (F64.of_Z e) (F64.of_Z 255) in
       match F64.of_Z e with S754_infinity _ => false | _ => true end
       && fle F64.zero v && fle v F64.one
       && match SF2Q v with
          | Some q =>
              Qle_bool 0 q && Qle_bool q 1
              && Qle_bool (Qabs (q - inject_Z e / 255)%Q)
                          (inject_Z e / 255 * Qpower 2 (-53))%Q
          | None => false
          end)
    (map Z.of_nat (seq 0 256)) = true.
Proof. vm_compute. reflexivity. Qed.

Lemma scale_in_range (e : Z) :
  (0 <= e <= 255)%Z -> In e (map Z.of_nat (seq 0 256)).
Proof.
  intros He. apply in_map_iff. exists (Z.to_nat e).
  split; [lia | apply in_seq; lia].
Qed.

Lemma int_div_float_255 (e : Z) :
  match F64.of_Z e with S754_infinity _ => false | _ => true end = true ->
  int_div_float e (F64.of_Z 255)
  = Ok (F64.div (F64.of_Z e) (F64.of_Z 255)).
Proof.
  intros Hfin. unfold int_div_float, int_to_float.
  change (F64.of_Z 255) with (S754_finite false 8972014882652160 (-45)).
  destruct (F64.of_Z e); try reflexivity. discriminate.
Qed.

Lemma eps_iter_normalized :
  int_div_float eps_iter (F64.of_Z 255)
  = Ok (F64.div (F64.of_Z 20) (F64.of_Z 255)).
Proof. vm_compute. reflexivity. Qed.

(** The selector's result for a name of the enumeration, whatever the
    draw: the clip bounds are in the dictionary. *)
Lemma select_attack_clip (name : string) (args : Namespace)
    (eps_n eps_iter_n : spec_float) (draw : Z) (L : Locals)
    (m : gmap string PyVal) :
  name ∈ attack_choices -> attack args = AttackStr name ->
  select_attack args eps_n eps_iter_n draw = Ok L ->
  attack_params L = Some m ->
  m !! "clip_min" = Some (VFloat clip_min)
  /\ m !! "clip_max" = Some (VFloat clip_max).
Proof.
  intros Hin Ha. unfold select_attack. rewrite Ha.
  attack_cases Hin; select_branch.
  1: destruct (np_setitem0 (np_zeros 1 1000) draw F64.one); [|discriminate].
  all: intros [= <-]; cbn [attack_params]; intros [= <-];
       split; dict_lookup.
Qed.

(** C5. The clip bounds are the minimum of the normalised all-zeros
    tensor and the maximum of the normalised all-ones tensor, under
    [Normalize(mean, std)] with the fixed constants: the two normalised
    tensors are given value by value, each channel within 2^-22 of
    [(x - mean) / std]; the bounds are -8883133/2^22 (about -2.1179, the
    red channel of black) and 11072963/2^22 (about 2.64, the blue channel
    of white); the lower bound is strictly below the upper one; and these
    two values are the [clip_min] and [clip_max] of every attack's
    parameters. *)
Theorem clip_bounds_from_normalize :
  clip_min
  = tensor_min_item (Normalize imagenet_mean imagenet_std (torch_zeros 3))
  /\ clip_max
     = tensor_max_item (Normalize imagenet_mean imagenet_std (torch_ones 3))
  /\ forallb (fle clip_min)
             (Normalize imagenet_mean imagenet_std (torch_zeros 3)) = true
  /\ existsb (SFeqb clip_min)
             (Normalize imagenet_mean imagenet_std (torch_zeros 3)) = true
  /\ forallb (fun v => fle v clip_max)
             (Normalize imagenet_mean imagenet_std (torch_ones 3)) = true
  /\ existsb (SFeqb clip_max)
             (Normalize imagenet_mean imagenet_std (torch_ones 3)) = true
  /\ flt clip_min clip_max = true
  /\ map SF2Q (Normalize imagenet_mean imagenet_std (torch_zeros 3))
     = [Some (-8883133 # 4194304)%Q; Some (-8538404 # 4194304)%Q;
        Some (-15136777 # 8388608)%Q]
  /\ map SF2Q (Normalize imagenet_mean imagenet_std (torch_ones 3))
     = [Some (9432605 # 4194304)%Q; Some (10186167 # 4194304)%Q;
        Some (11072963 # 4194304)%Q]
  /\ Forall2 (close_to (Qpower 2 (-22)))
             (Normalize imagenet_mean imagenet_std (torch_zeros 3))
             (normalize_exact 0)
  /\ Forall2 (close_to (Qpower 2 (-22)))
             (Normalize imagenet_mean imagenet_std (torch_ones 3))
             (normalize_exact 1)
  /\ SF2Q clip_min = Some (-8883133 # 4194304)%Q
  /\ SF2Q clip_max = Some (11072963 # 4194304)%Q
  /\ close_to (Qpower 2 (-22)) clip_min ((0 - (485 # 1000)) / (229 # 1000))
  /\ close_to (Qpower 2 (-22)) clip_max ((1 - (406 # 1000)) / (225 # 1000))
  /\ forall name args eps_n eps_iter_n draw L m,
       name ∈ attack_choices -> attack args = AttackStr name ->
       select_attack args eps_n eps_iter_n draw = Ok L ->
       attack_params L = Some m ->
       m !! "clip_min" = Some (VFloat clip_min)
       /\ m !! "clip_max" = Some (VFloat clip_max).
Proof.
  split; [reflexivity|]. split; [reflexivity|].
  split; [vm_compute; reflexivity|]. split; [vm_compute; reflexivity|].
  split; [vm_compute; reflexivity|]. split; [vm_compute; reflexivity|].
  split; [vm_compute; reflexivity|].
  split; [vm_compute; reflexivity|]. split; [vm_compute; reflexivity|].
  split; [apply Forall2_close_to; vm_compute; reflexivity|].
  split; [apply Forall2_close_to; vm_compute; reflexivity|].
  split; [vm_compute; reflexivity|]. split; [vm_compute; reflexivity|].
  split; [apply close_tob_ok; vm_compute; reflexivity|].
  split; [apply close_tob_ok; vm_compute; reflexivity|].
  intros name args eps_n eps_iter_n draw L m.
  apply select_attack_clip.
Qed.

(** The two bounds as real numbers: about -2.1179 and 2.64. *)
Example clip_bounds_values :
  SF2Q clip_min = Some (-8883133 # 4194304)%Q
  /\ SF2Q clip_max = Some (11072963 # 4194304)%Q.
Proof. split; vm_compute; reflexivity. Qed.

(** What [attack_construction] returns once the budget is known. *)
Lemma attack_construction_eq (args : Namespace) (draw : Z) (v : spec_float) :
  int_div_float (eps args) (F64.of_Z 255) = Ok v ->
  attack_construction args draw
  = match select_attack (set_ord args (resolve_ord (ord args))) v
            (F64.div (F64.of_Z 20) (F64.of_Z 255)) draw with
    | Raise e => Raise e
    | Ok L => Ok (set_ord args (resolve_ord (ord args)), L)
    end.
Proof.
  intros Hv. unfold attack_construction. rewrite Hv.
  rewrite eps_iter_normalized. reflexivity.
Qed.

(** C6. For every integer epsilon of the 0-255 scale given on the command
    line, the normalised epsilon is the quotient [eps / 255.]: a binary64
    nearest to the rational [eps/255], within a relative 2^-53 of it, and
    equal to it at both ends of the scale (0 and 1).  It lies in the
    closed interval from 0 to 1, and it is the value the attacks receive:
    under [eps] for the gradient attacks and under [theta] for jsma. *)
Theorem eps_normalized (c : bool) (a : Argv) (args : Namespace) (draw : Z) :
  parse_args c a = Ok args ->
  (0 <= default 20 (argv_eps a) <= 255)%Z ->
  let e := default 20%Z (argv_eps a) in
  let v := F64.div (F64.of_Z e) (F64.of_Z 255) in
  int_div_float (eps args) (F64.of_Z 255) = Ok v
  /\ fle F64.zero v = true /\ fle v F64.one = true
  /\ (exists q, SF2Q v = Some q /\ (0 <= q)%Q /\ (q <= 1)%Q
        /\ (Qabs (q - inject_Z e / 255)
            <= inject_Z e / 255 * Qpower 2 (-53))%Q)
  /\ nearest_to v (inject_Z e / 255)
  /\ (e = 0%Z -> v = S754_zero false)
  /\ (e = 255%Z -> v = F64.of_Z 1)
  /\ (forall name, name ∈ grad_attacks -> attack args = AttackStr name ->
      exists args' L m,
        attack_construction args draw = Ok (args', L)
        /\ attack_params L = Some m
        /\ m !! "eps" = Some (VFloat v))
  /\ (attack args = AttackStr "jsma" ->
      exists args' L m,
        attack_construction args draw = Ok (args', L)
        /\ attack_params L = Some m
        /\ m !! "theta" = Some (VFloat v)).
Proof.
  intros Hp He e v. subst v e.
  rewrite <- (parse_args_eps _ _ _ Hp) in *.
  set (v := F64.div (F64.of_Z (eps args)) (F64.of_Z 255)).
  pose proof (proj1 (forallb_forall _ _) eps_scale_checked _
                (scale_in_range _ He)) as Hc.
  pose proof (proj1 (forallb_forall _ _) eps_nearest_checked _
                (scale_in_range _ He)) as Hn.
  cbv beta zeta in Hc, Hn. fold v in Hc, Hn.
  apply andb_true_iff in Hc as [Hc Hq].
  apply andb_true_iff in Hc as [Hc H1].
  apply andb_true_iff in Hc as [Hfin H0].
  pose proof (int_div_float_255 _ Hfin) as Hdiv. fold v in Hdiv.
  split; [exact Hdiv|]. split; [exact H0|]. split; [exact H1|].
  split.
  { destruct (SF2Q v) as [q|]; [|discriminate].
    apply andb_true_iff in Hq as [Hq Hacc].
    apply andb_true_iff in Hq as [Hq0 Hq1].
    exists q. split; [reflexivity|].
    repeat split; apply Qle_bool_iff; assumption. }
  split; [apply nearest_tob_ok; exact Hn|].
  split; [intros E0; subst v; rewrite E0; vm_compute; reflexivity|].
  split; [intros E1; subst v; rewrite E1; vm_compute; reflexivity|].
  split.
  - intros name Hin Ha.
    rewrite (attack_construction_eq _ draw _ Hdiv).
    unfold select_attack. cbn [attack set_ord]. rewrite Ha.
    unfold grad_attacks in Hin.
    repeat (apply elem_of_cons in Hin as [Hin|Hin]; [subst | ]);
      [ .. | apply elem_of_nil in Hin; destruct Hin ];
      select_branch; eexists _, _, _;
      (split; [reflexivity|]); (split; [reflexivity|]); dict_lookup.
  - intros Ha.
    rewrite (attack_construction_eq _ draw _ Hdiv).
    unfold select_attack. cbn [attack set_ord]. rewrite Ha.
    select_branch. eexists _, _, _.
    split; [reflexivity|]. split; [reflexivity|]. dict_lookup.
Qed.

(** The real value of the normalised epsilon against the rational
    [eps/255]: the relative error is at most 2^-53, one rounding of
    binary64. *)
Lemma eps_normalized_accuracy (e : Z) :
  (0 <= e <= 255)%Z ->
  exists q, SF2Q (F64.div (F64.of_Z e) (F64.of_Z 255)) = Some q
    /\ (Qabs (q - inject_Z e / 255) <= inject_Z e / 255 * Qpower 2 (-53))%Q.
Proof.
  intros He.
  pose proof (proj1 (forallb_forall _ _) eps_scale_checked _
                (scale_in_range _ He)) as Hc.
  cbv beta zeta in Hc.
  apply andb_true_iff in Hc as [_ Hq].
  destruct (SF2Q (F64.div (F64.of_Z e) (F64.of_Z 255))) as [q|]; [|discriminate].
  apply andb_true_iff in Hq as [_ Hq].
  exists q. split; [reflexivity|]. apply Qle_bool_iff. exact Hq.
Qed.

(** C7. The norm order defaults to infinity: with [--ord] omitted, or
    given as -1, the [ord] entry of the attack's parameters is [np.inf]
    (the float, not an integer); given as 1 or 2 it is that integer,
    unchanged.  The parameters exist for every budget of the 0-255
    scale. *)
Theorem ord_defaults_to_inf (c : bool) (a : Argv) (args : Namespace) (draw : Z) :
  parse_args c a = Ok args ->
  let o := resolve_ord (ord args) in
  (argv_ord a = None \/ argv_ord a = Some (-1)%Z -> o = OrdInf)
  /\ (forall n, n = 1%Z \/ n = 2%Z -> argv_ord a = Some n -> o = OrdInt n)
  /\ ord_to_val OrdInf = VFloat (S754_infinity false)
  /\ (forall args' L name,
        attack_construction args draw = Ok (args', L) ->
        name ∈ grad_attacks -> attack args = AttackStr name ->
        ord args' = o
        /\ exists m, attack_params L = Some m
                     /\ m !! "ord" = Some (ord_to_val o)
                     /\ (argv_ord a = None \/ argv_ord a = Some (-1)%Z ->
                         m !! "ord" = Some (VFloat (S754_infinity false)))
                     /\ (forall n, n = 1%Z \/ n = 2%Z ->
                         argv_ord a = Some n ->
                         m !! "ord" = Some (VInt n)))
  /\ (forall name, name ∈ grad_attacks -> attack args = AttackStr name ->
      (0 <= eps args <= 255)%Z ->
      exists args' L, attack_construction args draw = Ok (args', L)).
Proof.
  intros Hp o. subst o. pose proof (parse_args_ord _ _ _ Hp) as Ho.
  assert (H1 : argv_ord a = None \/ argv_ord a = Some (-1)%Z ->
               resolve_ord (ord args) = OrdInf).
  { intros [Hn|Hn]; rewrite Hn in Ho.
    - rewrite Ho. reflexivity.
    - destruct Ho as [_ ->]. reflexivity. }
  assert (H2 : forall n, n = 1%Z \/ n = 2%Z -> argv_ord a = Some n ->
               resolve_ord (ord args) = OrdInt n).
  { intros n Hn Hs. rewrite Hs in Ho. destruct Ho as [_ ->].
    destruct Hn as [->| ->]; reflexivity. }
  split; [exact H1|]. split; [exact H2|]. split; [reflexivity|]. split.
  - intros args' L name Hc Hin Ha.
    assert (Hm : ord args' = resolve_ord (ord args)
                 /\ exists m, attack_params L = Some m
                      /\ m !! "ord"
                         = Some (ord_to_val (resolve_ord (ord args)))).
    { unfold attack_construction in Hc.
      destruct (int_div_float (eps args) (F64.of_Z 255)) as [v|]; [|discriminate].
      destruct (int_div_float eps_iter (F64.of_Z 255)) as [vi|]; [|discriminate].
      revert Hc. unfold select_attack. cbn [attack set_ord]. rewrite Ha.
      unfold grad_attacks in Hin.
      repeat (apply elem_of_cons in Hin as [Hin|Hin]; [subst | ]);
        [ .. | apply elem_of_nil in Hin; destruct Hin ];
        select_branch; intros [= <- <-]; (split; [reflexivity|]);
        eexists; (split; [reflexivity|]); cbn [ord set_ord]; dict_lookup. }
    destruct Hm as (Hord & m & Hm & Hlk).
    split; [exact Hord|]. exists m. split; [exact Hm|]. split; [exact Hlk|].
    split.
    + intros Hn. rewrite Hlk, (H1 Hn). reflexivity.
    + intros n Hn Hs. rewrite Hlk, (H2 n Hn Hs). reflexivity.
  - intros name Hin Ha He.
    pose proof (proj1 (forallb_forall _ _) eps_scale_checked _
                  (scale_in_range _ He)) as Hc.
    cbv beta zeta in Hc.
    apply andb_true_iff in Hc as [Hc _].
    apply andb_true_iff in Hc as [Hc _].
    apply andb_true_iff in Hc as [Hfin _].
    rewrite (attack_construction_eq _ draw _ (int_div_float_255 _ Hfin)).
    unfold select_attack. cbn [attack set_ord]. rewrite Ha.
    unfold grad_attacks in Hin.
    repeat (apply elem_of_cons in Hin as [Hin|Hin]; [subst | ]);
      [ .. | apply elem_of_nil in Hin; destruct Hin ];
      select_branch; eexists _, _; reflexivity.
Qed.

(** C10. For lbfgs the selector builds the target as one row of 1000
    entries, 1 at the drawn index and 0 elsewhere; the row depends on
    the draw alone (any two configurations get the same target from the
    same draw), and two different draws give two different targets. *)
Theorem lbfgs_target_one_hot (args : Namespace) (eps_n eps_iter_n : spec_float)
    (draw : Z) :
  attack args = AttackStr "lbfgs" -> (0 <= draw < 1000)%Z ->
  exists L row,
    select_attack args eps_n eps_iter_n draw = Ok L
    /\ target L = Some [row]
    /\ shape2 [row] = [1%nat; 1000%nat]
    /\ row !! Z.to_nat draw = Some F64.one
    /\ (forall j, (j < 1000)%nat -> j <> Z.to_nat draw ->
                  row !! j = Some F64.zero)
    /\ F64.one <> F64.zero
    /\ y L = Some (VPlaceholder [1%nat; 1000%nat])
    /\ (forall args2 e2 ei2, attack args2 = AttackStr "lbfgs" ->
          exists L2, select_attack args2 e2 ei2 draw = Ok L2
                     /\ target L2 = target L)
    /\ (forall draw2, (0 <= draw2 < 1000)%Z -> draw2 <> draw ->
          exists L2, select_attack args eps_n eps_iter_n draw2 = Ok L2
                     /\ target L2 <> target L).
Proof.
  intros Ha Hd.
  assert (Hsel : forall args0 e0 ei0 d, attack args0 = AttackStr "lbfgs" ->
            (0 <= d < 1000)%Z ->
            exists L0, select_attack args0 e0 ei0 d = Ok L0
              /\ target L0 = Some [one_hot_row 1000 (Z.to_nat d)]
              /\ y L0 = Some (VPlaceholder [1%nat; 1000%nat])).
  { intros args0 e0 ei0 d Ha0 Hd0. unfold select_attack. rewrite Ha0.
    select_branch. rewrite np_setitem0_one_hot by exact Hd0.
    rewrite shape2_one_hot. eexists. split; [reflexivity|].
    split; reflexivity. }
  destruct (Hsel args eps_n eps_iter_n draw Ha Hd) as (L & HL & Ht & Hy).
  exists L, (one_hot_row 1000 (Z.to_nat draw)).
  split; [exact HL|]. split; [exact Ht|]. split; [apply shape2_one_hot|].
  split. { rewrite lookup_one_hot_row by lia. rewrite Nat.eqb_refl. reflexivity. }
  split. { intros j Hj Hne. rewrite lookup_one_hot_row by lia.
           destruct (Nat.eqb_spec j (Z.to_nat draw)); [contradiction|reflexivity]. }
  split; [intros H1; vm_compute in H1; discriminate H1|]. split; [exact Hy|]. split.
  - intros args2 e2 ei2 Ha2.
    destruct (Hsel args2 e2 ei2 draw Ha2 Hd) as (L2 & HL2 & Ht2 & _).
    exists L2. split; [exact HL2|]. rewrite Ht2, Ht. reflexivity.
  - intros draw2 Hd2 Hne.
    destruct (Hsel args eps_n eps_iter_n draw2 Ha Hd2) as (L2 & HL2 & Ht2 & _).
    exists L2. split; [exact HL2|]. rewrite Ht2, Ht. intros Heq.
    apply (f_equal (fun t => match t with
                             | Some [r] => r !! Z.to_nat draw
                             | _ => None
                             end)) in Heq.
    cbv beta iota in Heq.
    rewrite !lookup_one_hot_row in Heq by lia.
    rewrite Nat.eqb_refl in Heq.
    destruct (Nat.eqb_spec (Z.to_nat draw) (Z.to_nat draw2)) as [He|He];
      [lia | ].
    vm_compute in Heq. discriminate Heq.
Qed.

(** With the integer default no comparison of the selector succeeds, so
    nothing but the empty suffix is bound. *)
Lemma select_attack_default (args : Namespace) (eps_n eps_iter_n : spec_float)
    (draw z : Z) :
  attack args = AttackInt z ->
  select_attack args eps_n eps_iter_n draw
  = Ok {| attack_name := ""; attack_op := None; attack_params := None;
          target := None; y := None |}.
Proof. intros Ha. unfold select_attack. rewrite Ha. reflexivity. Qed.

(* ===================================================================== *)
(** ** Facts about the loader and the numpy helpers *)
(* ===================================================================== *)

(** The batches, put end to end, are the sampler's indices in order. *)
Lemma batch_sampler_concat (bs : nat) (idxs batch : list nat) :
  concat (batch_sampler bs batch idxs) = (batch ++ idxs)%list.
Proof.
  revert batch. induction idxs as [|i rest IH]; intros batch.
  - cbn [batch_sampler]. destruct batch as [|b batch'].
    + reflexivity.
    + cbn [concat]. rewrite !app_nil_r. reflexivity.
  - cbn [batch_sampler]. cbv zeta.
    destruct (length (batch ++ [i]) =? bs)%nat.
    + cbn [concat]. rewrite IH. cbn [app]. rewrite <- app_assoc. reflexivity.
    + rewrite IH. rewrite <- app_assoc. reflexivity.
Qed.

(** No batch is empty. *)
Lemma batch_sampler_nonempty (bs : nat) (idxs batch : list nat) :
  Forall (fun b => b <> []) (batch_sampler bs batch idxs).
Proof.
  revert batch. induction idxs as [|i rest IH]; intros batch.
  - cbn [batch_sampler]. destruct batch; [constructor|].
    constructor; [discriminate | constructor].
  - cbn [batch_sampler]. cbv zeta.
    destruct (length (batch ++ [i]) =? bs)%nat.
    + constructor; [destruct batch; discriminate | apply IH].
    + apply IH.
Qed.

(** With shuffling off the loader ignores the random sampler and visits
    the indices [0 .. n-1] in order. *)
Lemma DataLoader_sequential (perm : nat -> list nat) (n : nat) (bs : Z)
    (batches : list (list nat)) :
  DataLoader perm n false bs = Ok batches ->
  concat batches = seq 0 n /\ Forall (fun b => b <> []) batches.
Proof.
  unfold DataLoader. destruct (bs <=? 0)%Z; [discriminate|].
  intros [= <-]. split.
  - apply batch_sampler_concat.
  - apply batch_sampler_nonempty.
Qed.

Lemma DataLoader_first_batch (perm : nat -> list nat) (n : nat) (bs : Z) :
  (0 < n)%nat -> (0 < bs)%Z ->
  exists b rest,
    DataLoader perm n false bs = Ok (b :: rest)
    /\ Forall (fun i => (i < n)%nat) b.
Proof.
  intros Hn Hbs.
  destruct (DataLoader perm n false bs) as [batches|e] eqn:Hdl.
  2: { unfold DataLoader in Hdl.
       destruct (Z.leb_spec bs 0); [lia | discriminate]. }
  destruct (DataLoader_sequential _ _ _ _ Hdl) as [Hcat _].
  destruct batches as [|b rest].
  - cbn in Hcat. destruct n; [lia | discriminate].
  - exists b, rest. split; [reflexivity|].
    apply Forall_forall. intros i Hi.
    assert (Hin : i ∈ seq 0 n).
    { rewrite <- Hcat. cbn [concat]. apply elem_of_app. left. exact Hi. }
    apply elem_of_seq in Hin. lia.
Qed.

(* ===================================================================== *)
(** ** Facts about the batch loop and the whole script *)
(* ===================================================================== *)

Section ScriptFacts.

Variable Img : Type.
Variable ImageDataset : string -> list (string * Img).
Variable torch_randperm : nat -> list nat.
Variable np_random_randint : Z -> Z.
Variable cuda_available : bool.
Variable tf_model : Img -> list spec_float.
Variable attack_generate :
  AttackOp -> gmap string PyVal -> list (list spec_float) -> Img -> Img.

Local Abbreviation step := (batch_step Img tf_model attack_generate).
Local Abbreviation loop := (batch_loop Img tf_model attack_generate).
Local Abbreviation run_main :=
  (main Img ImageDataset torch_randperm np_random_randint tf_model
        attack_generate).
Local Abbreviation run_script :=
  (script Img ImageDataset torch_randperm np_random_randint cuda_available
          tf_model attack_generate).
Local Abbreviation is_flipped := (flipped Img tf_model attack_generate).
Local Abbreviation count_flipped := (n_flipped Img tf_model attack_generate).
Local Abbreviation rate := (success_rate Img tf_model attack_generate).

(** Fetching indices that are in range succeeds and yields the images
    at those indices. *)
Lemma fetch_in_range (dataset : list (string * Img)) (idxs : list nat) :
  Forall (fun i => (i < length dataset)%nat) idxs ->
  exists ps xs, fetch Img dataset idxs = Ok (ps, xs).
Proof.
  induction 1 as [|i rest Hi _ IH].
  - eexists _, _. reflexivity.
  - destruct IH as (ps & xs & IH). cbn [fetch].
    destruct (lookup_lt_is_Some_2 dataset i Hi) as [[p x] Hl].
    rewrite Hl, IH. eexists _, _. reflexivity.
Qed.

Lemma fetch_images (dataset : list (string * Img)) (idxs : list nat)
    (ps : list string) (xs : list Img) :
  fetch Img dataset idxs = Ok (ps, xs) ->
  xs = batch_images Img dataset idxs.
Proof.
  revert ps xs. induction idxs as [|i rest IH]; intros ps xs.
  - intros [= <- <-]. reflexivity.
  - cbn [fetch]. destruct (dataset !! i) as [[p x]|] eqn:Hl; [|discriminate].
    destruct (fetch Img dataset rest) as [[ps' xs']|]; [|discriminate].
    intros [= <- <-]. unfold batch_images. cbn [omap list_omap].
    rewrite Hl. cbn. f_equal. apply (IH ps' xs'). reflexivity.
Qed.

(** The saving loop, however it ends, leaves the progress bar alone, and
    with it what the file system answers. *)
Lemma save_samples_effect (out name : string) (ps : list string)
    (advs : list Img) (ss ds : list nat) (w : World Img) :
  postfix (snd (save_samples Img out name ps advs ss ds w)) = postfix w
  /\ open_error (snd (save_samples Img out name ps advs ss ds w))
     = open_error w.
Proof.
  revert advs ss ds w. induction ps as [|p ps IH]; intros advs ss ds w.
  - split; reflexivity.
  - destruct advs as [|a advs]; [split; reflexivity|].
    destruct ss as [|s ss]; [split; reflexivity|].
    destruct ds as [|d ds]; [split; reflexivity|].
    cbn [save_samples]. unfold bind, savez_compressed.
    destruct (open_error w (os_path_join out (sample_name p name s d)));
      [split; reflexivity|].
    match goal with
    | |- context [save_samples Img out name ps advs ss ds ?w0] =>
        destruct (IH advs ss ds w0) as [Hp Ho]
    end.
    split; [exact Hp | exact Ho].
Qed.

(** The number of samples kept by the success mask is the number of
    flipped samples. *)
Lemma mask_counts_flipped (op : AttackOp) (params : gmap string PyVal)
    (tgt : list (list spec_float)) (xs : list Img) (src dst : list nat) :
  argmax_rows (map tf_model xs) = Ok src ->
  argmax_rows (map tf_model (map (attack_generate op params tgt) xs))
  = Ok dst ->
  length (np_mask (map (attack_generate op params tgt) xs)
                  (np_ne src dst))
  = length (List.filter (is_flipped op params tgt) xs).
Proof.
  revert src dst. induction xs as [|x xs IH]; intros src dst.
  - intros [= <-] [= <-]. reflexivity.
  - cbn [map argmax_rows List.filter]. unfold flipped at 1.
    destruct (np_argmax (tf_model x)) as [s|]; [|discriminate].
    destruct (argmax_rows (map tf_model xs)) as [src'|]; [|discriminate].
    intros [= <-].
    destruct (np_argmax (tf_model (attack_generate op params tgt x)))
      as [d|]; [|discriminate].
    destruct (argmax_rows
                (map tf_model (map (attack_generate op params tgt) xs)))
      as [dst'|]; [|discriminate].
    intros [= <-]. unfold np_ne. cbn [zip_with np_mask].
    fold (np_ne src' dst').
    destruct (negb (s =? d)%nat); cbn [length];
      rewrite (IH src' dst') by reflexivity; reflexivity.
Qed.

Lemma count_flipped_app (op : AttackOp) (params : gmap string PyVal)
    (tgt : list (list spec_float)) (xs ys : list Img) :
  count_flipped op params tgt (xs ++ ys)%list
  = (count_flipped op params tgt xs + count_flipped op params tgt ys)%Z.
Proof.
  unfold n_flipped. rewrite List.filter_app, length_app. lia.
Qed.

(** One iteration that completes: the counters grow by the flipped
    samples and by the batch size, and the ratio of the new counters is
    handed to the progress bar. *)
Lemma batch_step_ok (args : Namespace) (L : Locals) (name : string)
    (op : AttackOp) (params : gmap string PyVal)
    (dataset : list (string * Img)) (ns np ns' np' : Z) (idxs : list nat)
    (w w' : World Img) (tgt : list (list spec_float)) :
  target L = Some tgt ->
  step args L name op params dataset (ns, np) idxs w = (Ok (ns', np'), w') ->
  let xs := batch_images Img dataset idxs in
  ns' = (ns + count_flipped op params tgt xs)%Z
  /\ np' = (np + Z.of_nat (length xs))%Z
  /\ postfix w' = F64.div (F64.of_Z ns') (F64.of_Z np') :: postfix w.
Proof.
  intros Ht. unfold batch_step, bind, lift.
  destruct (fetch Img dataset idxs) as [[ps xs]|] eqn:Hf; [|discriminate].
  apply fetch_images in Hf. subst xs.
  destruct (read_local "y" (y L)); [|discriminate].
  rewrite Ht. cbn [read_local].
  set (xs := batch_images Img dataset idxs).
  destruct (argmax_rows (map tf_model xs)) as [src|] eqn:Hs; [|discriminate].
  destruct (argmax_rows
              (map tf_model (map (attack_generate op params tgt) xs)))
    as [dst|] eqn:Hd; [|discriminate].
  rewrite (mask_counts_flipped op params tgt xs src dst Hs Hd).
  fold (count_flipped op params tgt xs).
  unfold int_truediv.
  destruct (np + Z.of_nat (length xs) =? 0)%Z; [discriminate|].
  unfold set_postfix.
  match goal with
  | |- context [save_samples Img ?o ?n ?p ?a ?s ?d ?w0] =>
      destruct (save_samples_effect o n p a s d w0) as [Hp _];
      destruct (save_samples Img o n p a s d w0) as [[[]|e] w1];
      [|discriminate]
  end.
  cbn [snd] in Hp.
  unfold ret. intros [= <- <- <-]. rewrite Hp. cbn [postfix].
  split; [reflexivity|]. split; reflexivity.
Qed.

Lemma seen_cons (dataset : list (string * Img)) (b : list nat)
    (rest : list (list nat)) (k : nat) :
  seen Img dataset (b :: rest) (S k)
  = (batch_images Img dataset b ++ seen Img dataset rest k)%list.
Proof. reflexivity. Qed.

Lemma seen_all (dataset : list (string * Img)) (batches : list (list nat)) :
  seen Img dataset batches (length batches)
  = concat (map (batch_images Img dataset) batches).
Proof. unfold seen. rewrite firstn_all. reflexivity. Qed.

(** The loop from arbitrary counters: the invariant behind C3. *)
Lemma batch_loop_ok (args : Namespace) (L : Locals) (name : string)
    (op : AttackOp) (params : gmap string PyVal)
    (dataset : list (string * Img)) (tgt : list (list spec_float))
    (batches : list (list nat)) :
  target L = Some tgt ->
  forall (ns np : Z) (w w' : World Img) (cnt : Z * Z),
  loop args L name op params dataset (ns, np) batches w = (Ok cnt, w') ->
  cnt = ((ns + count_flipped op params tgt
                 (seen Img dataset batches (length batches)))%Z,
         (np + Z.of_nat (length (seen Img dataset batches
                                      (length batches))))%Z)
  /\ exists shown : list spec_float,
       postfix w' = (rev shown ++ postfix w)%list
       /\ length shown = length batches
       /\ forall k, (k < length batches)%nat ->
            shown !! k
            = Some (F64.div
                      (F64.of_Z (ns + count_flipped op params tgt
                                        (seen Img dataset batches (S k))))
                      (F64.of_Z (np + Z.of_nat
                                   (length (seen Img dataset batches
                                                 (S k)))))).
Proof.
  intros Ht. induction batches as [|b rest IH]; intros ns np w w' cnt.
  - cbn [batch_loop]. unfold ret. intros [= <- <-]. split.
    + cbn. unfold n_flipped. cbn. f_equal; lia.
    + exists []. split; [reflexivity|]. split; [reflexivity|].
      intros k Hk. cbn in Hk. lia.
  - cbn [batch_loop]. unfold bind at 1.
    destruct (step args L name op params dataset (ns, np) b w)
      as [[[ns1 np1]|e] w1] eqn:Hstep; [|discriminate].
    intros Hloop.
    destruct (batch_step_ok _ _ _ _ _ _ _ _ _ _ _ _ _ _ Ht Hstep)
      as (Hns & Hnp & Hpf).
    destruct (IH _ _ _ _ _ Hloop) as (Hcnt & shown & Hshown & Hlen & Hk).
    cbn [length]. rewrite !seen_cons. split.
    + rewrite Hcnt, Hns, Hnp, count_flipped_app, length_app.
      f_equal; lia.
    + exists (F64.div (F64.of_Z ns1) (F64.of_Z np1) :: shown).
      split; [|split].
      * rewrite Hshown, Hpf. cbn [rev]. rewrite <- app_assoc. reflexivity.
      * cbn [length]. rewrite Hlen. reflexivity.
      * intros [|k] Hlt.
        -- rewrite lookup_cons.
           unfold seen at 1 2. cbn [take map concat].
           rewrite !app_nil_r, Hns, Hnp. reflexivity.
        -- rewrite lookup_cons.
           rewrite (Hk k) by (cbn [length] in Hlt; lia).
           rewrite !seen_cons.
           rewrite Hns, Hnp, count_flipped_app, length_app.
           do 3 f_equal; lia.
Qed.

(** C3. A sample counts as a success exactly when the argmax of its
    original prediction differs from the argmax of its adversarial
    prediction; after each batch the rate handed to the progress bar is
    [n_success / n_processed], the successes among all samples seen so
    far over the number of samples seen so far. *)
Theorem running_success_rate (args : Namespace) (L : Locals) (name : string)
    (op : AttackOp) (params : gmap string PyVal)
    (dataset : list (string * Img)) (tgt : list (list spec_float))
    (batches : list (list nat)) (w w' : World Img) (cnt : Z * Z) :
  target L = Some tgt ->
  loop args L name op params dataset (0, 0)%Z batches w = (Ok cnt, w') ->
  (forall x s d,
      np_argmax (tf_model x) = Ok s ->
      np_argmax (tf_model (attack_generate op params tgt x)) = Ok d ->
      (is_flipped op params tgt x = true <-> s <> d))
  /\ cnt = (count_flipped op params tgt
              (seen Img dataset batches (length batches)),
            Z.of_nat (length (seen Img dataset batches (length batches))))
  /\ exists shown : list spec_float,
       postfix w' = (rev shown ++ postfix w)%list
       /\ length shown = length batches
       /\ forall k, (k < length batches)%nat ->
            shown !! k
            = Some (rate op params tgt (seen Img dataset batches (S k))).
Proof.
  intros Ht Hloop. split.
  { intros x s d Hs Hd. unfold flipped. rewrite Hs, Hd.
    rewrite negb_true_iff. apply Nat.eqb_neq. }
  destruct (batch_loop_ok _ _ _ _ _ _ _ _ Ht _ _ _ _ _ Hloop)
    as (Hcnt & shown & Hshown & Hlen & Hk).
  split; [rewrite Hcnt; f_equal; lia|].
  exists shown. split; [exact Hshown|]. split; [exact Hlen|].
  intros k Hlt. rewrite (Hk k Hlt). unfold success_rate.
  rewrite !Z.add_0_l. reflexivity.
Qed.

(** Outside the lbfgs branch the selector binds an operator and its
    parameters but neither [y] nor [target]. *)
Lemma select_attack_non_lbfgs (name : string) (args : Namespace)
    (eps_n eps_iter_n : spec_float) (draw : Z) :
  name ∈ attack_choices -> name <> "lbfgs" ->
  attack args = AttackStr name ->
  exists L op m,
    select_attack args eps_n eps_iter_n draw = Ok L
    /\ y L = None /\ target L = None
    /\ attack_op L = Some op /\ attack_params L = Some m.
Proof.
  intros Hin Hne Ha. unfold select_attack. rewrite Ha.
  attack_cases Hin; [contradiction | ..]; select_branch;
    eexists _, _, _; repeat split; reflexivity.
Qed.

Lemma attack_construction_raise (args : Namespace) (draw : Z) (e : PyExc) :
  int_div_float (eps args) (F64.of_Z 255) = Raise e ->
  attack_construction args draw = Raise e.
Proof. intros H. unfold attack_construction. rewrite H. reflexivity. Qed.

(** With [y] unbound the loop changes nothing, and it raises on its
    first batch as soon as that batch has been fetched. *)
Lemma loop_unbound_y (args : Namespace) (L : Locals) (name : string)
    (op : AttackOp) (params : gmap string PyVal)
    (dataset : list (string * Img)) (cnt : Z * Z)
    (batches : list (list nat)) (w : World Img) :
  y L = None ->
  snd (loop args L name op params dataset cnt batches w) = w
  /\ (forall b rest ps xs,
        batches = b :: rest -> fetch Img dataset b = Ok (ps, xs) ->
        fst (loop args L name op params dataset cnt batches w)
        = Raise (UnboundLocalError "y")).
Proof.
  intros Hy. destruct batches as [|b rest].
  - split; [reflexivity|]. intros b rest ps xs Hb. discriminate Hb.
  - cbn [batch_loop]. unfold bind at 1. unfold batch_step.
    destruct cnt as [ns np]. unfold bind, lift. rewrite Hy.
    destruct (fetch Img dataset b) as [[ps xs]|e] eqn:Hf.
    + cbn. split; [reflexivity|]. intros; reflexivity.
    + cbn. split; [reflexivity|].
      intros b' rest' ps xs [= <- <-] Hf'. rewrite Hf in Hf'.
      discriminate Hf'.
Qed.

Lemma main_non_lbfgs (args : Namespace) (name : string) (w : World Img) :
  name ∈ attack_choices -> name <> "lbfgs" ->
  attack args = AttackStr name ->
  snd (run_main args w) = w
  /\ (forall v,
        int_div_float (eps args) (F64.of_Z 255) = Ok v ->
        (0 < batch_size args)%Z ->
        ImageDataset (image_folder args) <> [] ->
        run_main args w = (Raise (UnboundLocalError "y"), w)).
Proof.
  intros Hin Hne Ha. unfold main, bind, lift.
  set (dataset := ImageDataset (image_folder args)).
  destruct (DataLoader torch_randperm (length dataset) false
              (batch_size args)) as [batches|e] eqn:Hdl.
  2: { split; [reflexivity|]. intros v _ Hbs Hds.
       destruct (DataLoader_first_batch torch_randperm (length dataset)
                   (batch_size args)) as (b & rest & Hb & _);
         [destruct dataset; [contradiction | cbn; lia] | exact Hbs |].
       rewrite Hb in Hdl. discriminate Hdl. }
  destruct (int_div_float (eps args) (F64.of_Z 255)) as [v|e] eqn:Hv.
  2: { rewrite (attack_construction_raise _ _ _ Hv).
       split; [reflexivity|]. intros v [=]. }
  rewrite (attack_construction_eq _ _ _ Hv).
  destruct (select_attack_non_lbfgs name
              (set_ord args (resolve_ord (ord args))) v
              (F64.div (F64.of_Z 20) (F64.of_Z 255))
              (np_random_randint 1000) Hin Hne Ha)
    as (L & op & m & HL & Hy & _ & Hop & Hm).
  rewrite HL. cbn [attack set_ord]. rewrite Ha, Hm, Hop.
  cbn [attack_add read_local].
  match goal with
  | |- context [batch_loop Img tf_model attack_generate ?a ?l ?n ?o ?p ?d ?c ?b w] =>
      destruct (loop_unbound_y a l n o p d c b w Hy) as [Hsnd Hfst];
      destruct (batch_loop Img tf_model attack_generate a l n o p d c b w)
        as [r w1] eqn:Hloop
  end.
  cbn [snd fst] in Hsnd, Hfst. subst w1.
  split; [destruct r; reflexivity|].
  intros v' _ Hbs Hds.
  destruct (DataLoader_first_batch torch_randperm (length dataset)
              (batch_size args)) as (b & rest & Hb & Hrange);
    [destruct dataset; [contradiction | cbn; lia] | exact Hbs |].
  rewrite Hb in Hdl. injection Hdl as <-.
  destruct (fetch_in_range dataset b Hrange) as (ps & xs & Hf).
  rewrite (Hfst b rest ps xs eq_refl Hf). reflexivity.
Qed.

(** C2. For every attack name other than lbfgs the locals [y] and
    [target] are unbound when the loop evaluates its feed dictionary:
    the first batch raises the unbound-name error on [y], and the run
    ends with the world it started from, no sample saved. *)
Theorem non_lbfgs_unbound_y (a : Argv) (name : string) (w : World Img) :
  argv_attack a = Some name -> name ∈ attack_choices -> name <> "lbfgs" ->
  snd (run_script a w) = w
  /\ (forall args eps_n eps_iter_n draw L,
        parse_args cuda_available a = Ok args ->
        select_attack args eps_n eps_iter_n draw = Ok L ->
        y L = None /\ target L = None)
  /\ (forall args v,
        parse_args cuda_available a = Ok args ->
        int_div_float (eps args) (F64.of_Z 255) = Ok v ->
        (0 < batch_size args)%Z ->
        ImageDataset (image_folder args) <> [] ->
        run_script a w = (Raise (UnboundLocalError "y"), w)).
Proof.
  intros Hs Hin Hne. unfold script, bind, lift.
  destruct (parse_args cuda_available a) as [args|e] eqn:Hp.
  - destruct (parse_args_attack _ _ _ _ Hs Hp) as [Ha _].
    destruct (main_non_lbfgs args name w Hin Hne Ha) as [Hsnd Hraise].
    split; [exact Hsnd|]. split.
    + intros args0 eps_n eps_iter_n draw L [= <-] HL.
      destruct (select_attack_non_lbfgs name args eps_n eps_iter_n draw
                  Hin Hne Ha) as (L' & _ & _ & HL' & Hy & Ht & _).
      rewrite HL' in HL. injection HL as <-. split; assumption.
    + intros args0 v [= <-]. apply Hraise.
  - split; [reflexivity|]. split; intros; discriminate.
Qed.

(** C1 (evaluation at the scenario's input). The spec's end-to-end
    scenario is a run of fgsm with [eps=20] and the default norm on a
    folder with one image.  The selector computes the name
    [fgsm_Linf_eps20], so a saved sample would be called
    [{path}_fgsm_Linf_eps20_src{C}_dst{C'}.npz]; but the run raises the
    unbound-name error on [y] at its first batch, whatever the
    classifier and the attack do, and leaves no file. *)
Theorem fgsm_scenario_raises (a : Argv) (p : string) (x : Img)
    (w : World Img) :
  argv_attack a = Some "fgsm" -> argv_eps a = Some 20%Z ->
  argv_ord a = None -> (0 < default 1 (argv_batch_size a))%Z ->
  ImageDataset (argv_image_folder a) = [(p, x)] ->
  run_script a w = (Raise (UnboundLocalError "y"), w)
  /\ (exists args args' L,
        parse_args cuda_available a = Ok args
        /\ attack_construction args (np_random_randint 1000)
           = Ok (args', L)
        /\ attack_add (attack args') (attack_name L)
           = Ok "fgsm_Linf_eps20")
  /\ (forall C C' : nat,
        sample_name p "fgsm_Linf_eps20" C C'
        = p ++ "_fgsm_Linf_eps20_src" ++ str_nat C ++ "_dst"
            ++ str_nat C' ++ ".npz").
Proof.
  intros Hs He Ho Hbs Hds.
  assert (Hp : parse_args cuda_available a
               = Ok {| image_folder := argv_image_folder a;
                       out_folder := argv_out_folder a;
                       batch_size := default 1%Z (argv_batch_size a);
                       attack := AttackStr "fgsm";
                       eps := 20;
                       ord := OrdInt (-1);
                       device := if cuda_available then "cuda" else "cpu" |}).
  { unfold parse_args, check_choice. rewrite Hs, Ho, He.
    destruct (decide ("fgsm" ∈ attack_choices)) as [_|Hn]; [reflexivity|].
    exfalso. apply Hn. unfold attack_choices. set_solver. }
  match type of Hp with _ = Ok ?r => set (args0 := r) in Hp end.
  assert (Hv : int_div_float (eps args0) (F64.of_Z 255)
               = Ok (F64.div (F64.of_Z 20) (F64.of_Z 255)))
    by (apply int_div_float_255; vm_compute; reflexivity).
  split; [|split].
  - assert (Hin : "fgsm" ∈ attack_choices)
      by (unfold attack_choices; set_solver).
    unfold script, bind, lift. rewrite Hp.
    destruct (main_non_lbfgs args0 "fgsm" w Hin ltac:(discriminate) eq_refl)
      as [_ Hraise].
    apply (Hraise _ Hv).
    + exact Hbs.
    + subst args0. cbn [image_folder]. rewrite Hds. discriminate.
  - exists args0. eexists _, _. split; [exact Hp|].
    rewrite (attack_construction_eq args0 _ _ Hv).
    subst args0. unfold select_attack. cbn [attack set_ord]. select_branch.
    split; [reflexivity|]. vm_compute. reflexivity.
  - intros C C'. unfold sample_name. f_equal.
Qed.

(** C4. Each of the eight names is accepted by the parser, and the
    selector then binds an operator and a non-empty parameter mapping
    whose keys are exactly those of the table; [symbolic_impl] is false
    for jsma and the lbfgs target is one-hot.  Any other name supplied
    with [--attack] ends the run with the parser's usage error, before
    [main] is entered. *)
Theorem attack_table (a : Argv) (name : string) (w : World Img) :
  argv_attack a = Some name ->
  (name ∈ attack_choices ->
   forall args eps_n eps_iter_n draw,
     parse_args cuda_available a = Ok args -> (0 <= draw < 1000)%Z ->
     attack args = AttackStr name
     /\ exists L m,
          select_attack args eps_n eps_iter_n draw = Ok L
          /\ attack_params L = Some m
          /\ m <> ∅
          /\ dom m = table_keys name
          /\ is_Some (attack_op L)
          /\ (name = "jsma" -> m !! "symbolic_impl" = Some (VBool false))
          /\ (name = "lbfgs" ->
              target L = Some [one_hot_row 1000 (Z.to_nat draw)]
              /\ m !! "y_target" = Some (VPlaceholder [1%nat; 1000%nat])))
  /\ (name ∉ attack_choices ->
      parse_args cuda_available a = Raise (SystemExit 2)
      /\ run_script a w = (Raise (SystemExit 2), w)).
Proof.
  intros Hs. split.
  - intros Hin args eps_n eps_iter_n draw Hp Hd.
    destruct (parse_args_attack _ _ _ _ Hs Hp) as [Ha _].
    split; [exact Ha|].
    destruct (select_attack_table name args eps_n eps_iter_n draw Hin Ha Hd)
      as (L & m & HL & Hm & Hop & Hdom & Hmin & _ & Hj & Hl).
    exists L, m. split; [exact HL|]. split; [exact Hm|].
    split.
    { intros ->. rewrite lookup_empty in Hmin. discriminate Hmin. }
    split; [exact Hdom|]. split; [exact Hop|]. split; [exact Hj|].
    intros Hn. destruct (Hl Hn) as (Ht & _ & Hy). split; assumption.
  - intros Hout. pose proof (parse_args_reject cuda_available a name Hs Hout)
      as Hp.
    split; [exact Hp|]. unfold script, bind, lift. rewrite Hp. reflexivity.
Qed.

Lemma main_default_attack (args : Namespace) (z : Z) (w : World Img) :
  attack args = AttackInt z ->
  exists e,
    run_main args w = (Raise e, w)
    /\ (forall v, int_div_float (eps args) (F64.of_Z 255) = Ok v ->
                  (0 < batch_size args)%Z -> e = TypeError).
Proof.
  intros Ha. unfold main, bind, lift.
  set (dataset := ImageDataset (image_folder args)).
  destruct (DataLoader torch_randperm (length dataset) false
              (batch_size args)) as [batches|e] eqn:Hdl.
  2: { exists e. split; [reflexivity|]. intros v _ Hbs.
       unfold DataLoader in Hdl.
       destruct (Z.leb_spec (batch_size args) 0); [lia | discriminate]. }
  destruct (int_div_float (eps args) (F64.of_Z 255)) as [v|e] eqn:Hv.
  2: { rewrite (attack_construction_raise _ _ _ Hv). exists e.
       split; [reflexivity|]. intros v [=]. }
  rewrite (attack_construction_eq _ _ _ Hv).
  rewrite (select_attack_default _ _ _ _ z) by exact Ha.
  cbn [attack set_ord attack_name]. rewrite Ha. cbn [attack_add].
  exists TypeError. split; [reflexivity|]. intros; reflexivity.
Qed.

(** C9. With [--attack] omitted [args.attack] is the integer 20; it
    equals no name, so the selector binds neither an operator nor
    parameters, and the run ends with an exception (the [TypeError] of
    [args.attack + attack_name] once the loader and the budget are
    built) before any attack is run or anything is written. *)
Theorem attack_default_unusable (a : Argv) (w : World Img) :
  argv_attack a = None ->
  (forall args, parse_args cuda_available a = Ok args ->
     attack args = AttackInt 20
     /\ (forall name, attack_eq (attack args) name = false)
     /\ (forall eps_n eps_iter_n draw,
           exists L, select_attack args eps_n eps_iter_n draw = Ok L
                     /\ attack_op L = None /\ attack_params L = None))
  /\ (exists e, run_script a w = (Raise e, w))
  /\ (forall args v,
        parse_args cuda_available a = Ok args ->
        int_div_float (eps args) (F64.of_Z 255) = Ok v ->
        (0 < batch_size args)%Z ->
        run_script a w = (Raise TypeError, w)).
Proof.
  intros Hs. split; [|split].
  - intros args Hp.
    pose proof (parse_args_default_attack _ _ _ Hs Hp) as Ha.
    split; [exact Ha|]. split.
    + intros name. rewrite Ha. reflexivity.
    + intros eps_n eps_iter_n draw.
      rewrite (select_attack_default _ _ _ _ 20) by exact Ha.
      eexists. split; [reflexivity|]. split; reflexivity.
  - unfold script, bind, lift.
    destruct (parse_args cuda_available a) as [args|e] eqn:Hp.
    + pose proof (parse_args_default_attack _ _ _ Hs Hp) as Ha.
      destruct (main_default_attack args 20 w Ha) as (e & He & _).
      exists e. exact He.
    + exists e. reflexivity.
  - intros args v Hp Hv Hbs. unfold script, bind, lift. rewrite Hp.
    pose proof (parse_args_default_attack _ _ _ Hs Hp) as Ha.
    destruct (main_default_attack args 20 w Ha) as (e & He & Hty).
    rewrite He. rewrite (Hty v Hv Hbs). reflexivity.
Qed.

End ScriptFacts.

(* ===================================================================== *)
(** ** Two runs of the script *)
(* ===================================================================== *)

(** Only the lbfgs branch of the selector looks at the draw. *)
Lemma select_attack_draw_irrelevant (args : Namespace)
    (eps_n eps_iter_n : spec_float) (d1 d2 : Z) :
  attack args <> AttackStr "lbfgs" ->
  select_attack args eps_n eps_iter_n d1
  = select_attack args eps_n eps_iter_n d2.
Proof.
  intros Hne. unfold select_attack.
  repeat (match goal with
          | |- context [if attack_eq ?a ?s then _ else _] =>
              destruct (attack_eq a s) eqn:?; [reflexivity|]
          end).
  destruct (attack_eq (attack args) "lbfgs") eqn:Hl; [|reflexivity].
  exfalso. apply Hne. destruct (attack args) as [z|s]; [discriminate|].
  cbn [attack_eq] in Hl. apply bool_decide_eq_true_1 in Hl. subst s.
  reflexivity.
Qed.

(** C8, as amended. Two runs on the same command line, folder,
    classifier and attack end in the same result, the same archives and
    the same progress values whenever [np.random.randint(1000)] returns
    the same value in both, or the attack is not lbfgs; the random
    sampler plays no part, because the loader is built with shuffling
    off and visits the dataset in index order. *)
Theorem runs_agree_given_draw (Img : Type)
    (ImageDataset : string -> list (string * Img))
    (perm1 perm2 : nat -> list nat) (rnd1 rnd2 : Z -> Z) (cuda : bool)
    (tf_model : Img -> list spec_float)
    (attack_generate :
       AttackOp -> gmap string PyVal -> list (list spec_float) -> Img -> Img)
    (a : Argv) (w : World Img) :
  rnd1 1000%Z = rnd2 1000%Z \/ argv_attack a <> Some "lbfgs" ->
  script Img ImageDataset perm1 rnd1 cuda tf_model attack_generate a w
  = script Img ImageDataset perm2 rnd2 cuda tf_model attack_generate a w
  /\ (forall n bs batches,
        DataLoader perm1 n false bs = Ok batches ->
        DataLoader perm2 n false bs = Ok batches
        /\ concat batches = seq 0 n).
Proof.
  intros H. split.
  - unfold script, bind, lift.
    destruct (parse_args cuda a) as [args|e] eqn:Hp; [|reflexivity].
    unfold main, bind, lift.
    match goal with
    | |- context [DataLoader perm1 ?n false ?b] =>
        change (DataLoader perm1 n false b) with (DataLoader perm2 n false b);
        destruct (DataLoader perm2 n false b); [|reflexivity]
    end.
    assert (Hc : attack_construction args (rnd1 1000%Z)
                 = attack_construction args (rnd2 1000%Z)).
    { destruct H as [-> | Hne]; [reflexivity|].
      unfold attack_construction.
      destruct (int_div_float (eps args) (F64.of_Z 255)); [|reflexivity].
      destruct (int_div_float eps_iter (F64.of_Z 255)); [|reflexivity].
      rewrite (select_attack_draw_irrelevant _ _ _ (rnd1 1000%Z) (rnd2 1000%Z));
        [reflexivity|].
      cbn [attack set_ord]. intros Ha. apply Hne.
      destruct (argv_attack a) as [s|] eqn:Hs.
      - destruct (parse_args_attack _ _ _ _ Hs Hp) as [Ha' _].
        rewrite Ha' in Ha. congruence.
      - rewrite (parse_args_default_attack _ _ _ Hs Hp) in Ha.
        discriminate Ha. }
    rewrite Hc. reflexivity.
  - intros n bs batches Hdl. split; [exact Hdl|].
    apply (DataLoader_sequential _ _ _ _ Hdl).
Qed.

(* ===================================================================== *)
(** ** The statements at concrete inputs *)
(* ===================================================================== *)

(** The fgsm scenario on the one-image folder. *)
Lemma fgsm_scenario_raises_witness :
  Sample.run_one 7 (Sample.argv (Some "fgsm") 1)
  = (Raise (UnboundLocalError "y"), empty_world).
Proof.
  exact (proj1 (fgsm_scenario_raises nat Sample.one_image Sample.sequential
                  (fun _ => 7%Z) false Sample.model Sample.generate
                  (Sample.argv (Some "fgsm") 1) "a.jpg" 1%nat empty_world
                  eq_refl eq_refl eq_refl eq_refl eq_refl)).
Defined.

(** A pgd run on the three-image folder, in batches of two. *)
Lemma non_lbfgs_unbound_y_witness :
  Sample.run Sample.sequential 7 (Sample.argv (Some "pgd") 2)
  = (Raise (UnboundLocalError "y"), empty_world).
Proof.
  assert (Hin : "pgd" ∈ attack_choices) by (apply (bool_decide_unpack _); vm_compute; exact I).
  destruct (non_lbfgs_unbound_y nat Sample.dataset Sample.sequential
              (fun _ => 7%Z) false Sample.model Sample.generate
              (Sample.argv (Some "pgd") 2) "pgd" empty_world
              eq_refl Hin ltac:(discriminate)) as (_ & _ & H).
  eapply H.
  - vm_compute. reflexivity.
  - vm_compute. reflexivity.
  - reflexivity.
  - discriminate.
Defined.

(** The loop of an lbfgs run over three images in batches of two: image 2
    is the only one flipped, so the bar shows 1/2 and then 1/3. *)
Lemma running_success_rate_witness :
  fst (Sample.lbfgs_loop 0) = Ok (1, 3)%Z
  /\ exists shown : list spec_float,
       postfix (snd (Sample.lbfgs_loop 0)) = (rev shown ++ [])%list
       /\ length shown = 2%nat
       /\ shown !! 0%nat
          = Some (success_rate nat Sample.model Sample.generate LBFGS
                    Sample.lbfgs_params (Sample.lbfgs_target 0)
                    [1%nat; 2%nat])
       /\ shown !! 1%nat
          = Some (success_rate nat Sample.model Sample.generate LBFGS
                    Sample.lbfgs_params (Sample.lbfgs_target 0)
                    [1%nat; 2%nat; 3%nat]).
Proof.
  assert (Hrun : Sample.lbfgs_loop 0
                 = (Ok (1, 3)%Z, snd (Sample.lbfgs_loop 0)))
    by (vm_compute; reflexivity).
  split; [rewrite Hrun; reflexivity|].
  destruct (running_success_rate nat Sample.model Sample.generate
              Sample.lbfgs_args (Sample.lbfgs_locals 0) "lbfgs" LBFGS
              Sample.lbfgs_params (Sample.dataset "imgs")
              (Sample.lbfgs_target 0) [[0%nat; 1%nat]; [2%nat]]
              empty_world (snd (Sample.lbfgs_loop 0)) (1, 3)%Z
              eq_refl Hrun) as (_ & _ & shown & Hshown & Hlen & Hk).
  exists shown. split; [exact Hshown|]. split; [exact Hlen|].
  split; [apply (Hk 0%nat) | apply (Hk 1%nat)]; cbn [length]; lia.
Defined.

(** The table at fgsm, and the refusal of a name outside the
    enumeration. *)
Lemma attack_table_witness :
  (exists L m,
     select_attack Sample.lbfgs_args F64.one F64.one 7 = Ok L
     /\ attack_params L = Some m /\ m <> ∅
     /\ dom m = table_keys "lbfgs")
  /\ Sample.run Sample.sequential 7 (Sample.argv (Some "bim") 2)
     = (Raise (SystemExit 2), empty_world).
Proof.
  split.
  - assert (Hin : "lbfgs" ∈ attack_choices) by (apply (bool_decide_unpack _); vm_compute; exact I).
    destruct (proj1 (attack_table nat Sample.dataset Sample.sequential
                       (fun _ => 7%Z) false Sample.model Sample.generate
                       (Sample.argv (Some "lbfgs") 2) "lbfgs" empty_world
                       eq_refl) Hin
                {| image_folder := "imgs"; out_folder := "out";
                   batch_size := 2; attack := AttackStr "lbfgs"; eps := 20;
                   ord := OrdInt (-1); device := "cpu" |}
                F64.one F64.one 7%Z ltac:(vm_compute; reflexivity)
                ltac:(lia))
      as (_ & L & m & HL & Hm & Hne & Hdom & _).
    exists L, m. split; [exact HL|]. split; [exact Hm|].
    split; [exact Hne | exact Hdom].
  - assert (Hout : "bim" ∉ attack_choices) by (apply (bool_decide_unpack _); vm_compute; exact I).
    exact (proj2 (proj2 (attack_table nat Sample.dataset Sample.sequential
                           (fun _ => 7%Z) false Sample.model Sample.generate
                           (Sample.argv (Some "bim") 2) "bim" empty_world
                           eq_refl) Hout)).
Defined.

(** The clip bounds in the parameters of the fgsm attack. *)
Lemma clip_bounds_from_normalize_witness :
  flt clip_min clip_max = true
  /\ dict_merge common_params (grad_params F64.one OrdInf) !! "clip_min"
     = Some (VFloat clip_min)
  /\ dict_merge common_params (grad_params F64.one OrdInf) !! "clip_max"
     = Some (VFloat clip_max).
Proof.
  destruct clip_bounds_from_normalize
    as (_ & _ & _ & _ & _ & _ & Hlt & _ & _ & _ & _ & _ & _ & _ & _ & Hall).
  split; [exact Hlt|].
  assert (Hin : "fgsm" ∈ attack_choices)
    by (apply (bool_decide_unpack _); vm_compute; exact I).
  exact (Hall "fgsm"
           {| image_folder := "imgs"; out_folder := "out"; batch_size := 1;
              attack := AttackStr "fgsm"; eps := 20; ord := OrdInf;
              device := "cpu" |}
           F64.one F64.one 0%Z _ _ Hin eq_refl eq_refl eq_refl).
Defined.

(** Epsilon 20, the default: the quotient is within a relative 2^-53
    of 20/255, and it reaches fgsm under [eps]. *)
Lemma eps_normalized_witness :
  int_div_float 20 (F64.of_Z 255)
  = Ok (F64.div (F64.of_Z 20) (F64.of_Z 255))
  /\ fle F64.zero (F64.div (F64.of_Z 20) (F64.of_Z 255)) = true
  /\ fle (F64.div (F64.of_Z 20) (F64.of_Z 255)) F64.one = true
  /\ (exists q, SF2Q (F64.div (F64.of_Z 20) (F64.of_Z 255)) = Some q
        /\ (Qabs (q - inject_Z 20 / 255)
            <= inject_Z 20 / 255 * Qpower 2 (-53))%Q)
  /\ exists args' L m,
       attack_construction
         {| image_folder := "imgs"; out_folder := "out"; batch_size := 1;
            attack := AttackStr "fgsm"; eps := 20; ord := OrdInt (-1);
            device := "cpu" |} 0 = Ok (args', L)
       /\ attack_params L = Some m
       /\ m !! "eps" = Some (VFloat (F64.div (F64.of_Z 20) (F64.of_Z 255))).
Proof.
  assert (Hin : "fgsm" ∈ grad_attacks)
    by (apply (bool_decide_unpack _); vm_compute; exact I).
  destruct (eps_normalized false (Sample.argv (Some "fgsm") 1)
              {| image_folder := "imgs"; out_folder := "out"; batch_size := 1;
                 attack := AttackStr "fgsm"; eps := 20; ord := OrdInt (-1);
                 device := "cpu" |}
              0%Z ltac:(vm_compute; reflexivity)
              ltac:(simpl; lia))
    as (H1 & H2 & H3 & (q & Hq & _ & _ & Hacc) & _ & _ & _ & Hg & _).
  split; [exact H1|]. split; [exact H2|]. split; [exact H3|].
  split; [exists q; split; [exact Hq | exact Hacc]|].
  exact (Hg "fgsm" Hin eq_refl).
Defined.

(** The norm order of a pgd attack with [--ord 2]: the parameters hold
    the integer 2. *)
Lemma ord_defaults_to_inf_witness :
  ord_to_val OrdInf = VFloat (S754_infinity false)
  /\ exists args' L m,
       attack_construction
         {| image_folder := "imgs"; out_folder := "out"; batch_size := 1;
            attack := AttackStr "pgd"; eps := 8; ord := OrdInt 2;
            device := "cpu" |} 0 = Ok (args', L)
       /\ attack_params L = Some m
       /\ m !! "ord" = Some (VInt 2).
Proof.
  assert (Hin : "pgd" ∈ grad_attacks)
    by (apply (bool_decide_unpack _); vm_compute; exact I).
  destruct (ord_defaults_to_inf false
              {| argv_image_folder := "imgs"; argv_out_folder := "out";
                 argv_batch_size := None; argv_attack := Some "pgd";
                 argv_eps := Some 8; argv_ord := Some 2 |}
              {| image_folder := "imgs"; out_folder := "out"; batch_size := 1;
                 attack := AttackStr "pgd"; eps := 8; ord := OrdInt 2;
                 device := "cpu" |}
              0%Z ltac:(vm_compute; reflexivity))
    as (_ & _ & H3 & H4 & H5).
  split; [exact H3|].
  destruct (H5 "pgd" Hin eq_refl ltac:(simpl; lia)) as (args' & L & Hc).
  destruct (H4 args' L "pgd" Hc Hin eq_refl) as (_ & m & Hm & _ & _ & Hn).
  exists args', L, m. split; [exact Hc|]. split; [exact Hm|].
  exact (Hn 2%Z (or_intror eq_refl) eq_refl).
Defined.

(** Two lbfgs runs with the same draw and two different samplers. *)
Lemma runs_agree_given_draw_witness :
  Sample.run Sample.sequential 7 (Sample.argv (Some "lbfgs") 2)
  = Sample.run Sample.reversed 7 (Sample.argv (Some "lbfgs") 2).
Proof.
  exact (proj1 (runs_agree_given_draw nat Sample.dataset Sample.sequential
                  Sample.reversed (fun _ => 7%Z) (fun _ => 7%Z) false
                  Sample.model Sample.generate
                  (Sample.argv (Some "lbfgs") 2) empty_world
                  (or_introl eq_refl))).
Defined.

(** A run with [--attack] omitted. *)
Lemma attack_default_unusable_witness :
  Sample.run Sample.sequential 7 (Sample.argv None 2)
  = (Raise TypeError, empty_world).
Proof.
  destruct (attack_default_unusable nat Sample.dataset Sample.sequential
              (fun _ => 7%Z) false Sample.model Sample.generate
              (Sample.argv None 2) empty_world eq_refl) as (_ & _ & H).
  eapply H.
  - vm_compute. reflexivity.
  - vm_compute. reflexivity.
  - reflexivity.
Defined.

(** The lbfgs target for the draw 7. *)
Lemma lbfgs_target_one_hot_witness :
  exists L row,
    select_attack Sample.lbfgs_args F64.one F64.one 7 = Ok L
    /\ target L = Some [row]
    /\ row !! 7%nat = Some F64.one
    /\ row !! 8%nat = Some F64.zero.
Proof.
  destruct (lbfgs_target_one_hot Sample.lbfgs_args F64.one F64.one 7%Z
              eq_refl ltac:(lia))
    as (L & row & HL & Ht & _ & H1 & H0 & _).
  exists L, row. split; [exact HL|]. split; [exact Ht|].
  split; [exact H1|]. apply H0; [lia | discriminate].
Defined.

(** C8, as stated, fails: two lbfgs runs on the same command line,
    folder, classifier and attack, in which [np.random.randint(1000)]
    returns 0 and then 1, write different adversarial arrays. *)
Lemma lbfgs_runs_differ :
  fs (snd (Sample.run Sample.sequential 0 (Sample.argv (Some "lbfgs") 2)))
  <> fs (snd (Sample.run Sample.sequential 1 (Sample.argv (Some "lbfgs") 2))).
Proof.
  intros H.
  apply (f_equal (fun m => m !! "out/b.jpg_lbfgs_src2_dst0.npz")) in H.
  vm_compute in H. discriminate H.
Qed.

(* ===================================================================== *)
(** ** Further facts: [imshow] *)
(* ===================================================================== *)

(** Two non-negative finite floats are comparable: when one is not at
    most the other, the other is at most the one. *)
Lemma fle_total_pos (m1 m2 : positive) (e1 e2 : Z) :
  fle (S754_finite false m1 e1) (S754_finite false m2 e2) = false ->
  fle (S754_finite false m2 e2) (S754_finite false m1 e1) = true.
Proof.
  unfold fle, SFleb, SFcompare.
  rewrite (Z.compare_antisym e1 e2).
  destruct (Z.compare e1 e2); cbn [CompOpp].
  - replace (Pos.compare_cont Eq m2 m1)
      with (CompOpp (Pos.compare_cont Eq m1 m2))
      by apply (Pos.compare_cont_antisym m1 m2 Eq).
    destruct (Pos.compare_cont Eq m1 m2); cbn [CompOpp];
      intros; first [discriminate | reflexivity].
  - intros; discriminate.
  - intros; reflexivity.
Qed.

Lemma np_clip_unit (x : spec_float) :
  let v := np_clip x (F64.of_Z 0) (F64.of_Z 1) in
  is_nan v = is_nan x
  /\ (is_nan x = false -> fle (F64.of_Z 0) v = true /\ fle v (F64.of_Z 1) = true).
Proof.
  change (F64.of_Z 0) with (S754_zero false).
  change (F64.of_Z 1) with (S754_finite false 4503599627370496 (-52)).
  cbv zeta. unfold np_clip, np_minimum, np_maximum.
  destruct x as [s|s| |s m e].
  - split; [reflexivity|]. intros _. split; reflexivity.
  - destruct s; (split; [reflexivity|]); intros _; split; reflexivity.
  - split; [reflexivity|]. intros [=].
  - destruct s.
    + split; [reflexivity|]. intros _. split; reflexivity.
    + change (fle (S754_zero false) (S754_finite false m e)) with true.
      cbn [orb is_nan].
      destruct (fle (S754_finite false 4503599627370496 (-52))
                    (S754_finite false m e)) eqn:Hle; cbn [orb].
      * split; [reflexivity|]. intros _. split; reflexivity.
      * split; [reflexivity|]. intros _. split; [reflexivity|].
        apply fle_total_pos. exact Hle.
Qed.

(** X1. Whatever tensor [imshow] is given, every value it hands to
    matplotlib lies between 0 and 1, unless it is a NaN. *)
Theorem imshow_values_in_unit_range (inp : list (list (list spec_float)))
    (title : option string) (fig : Figure) :
  imshow inp title = Ok fig ->
  Forall (Forall (Forall (fun v =>
     is_nan v = true
     \/ (fle (F64.of_Z 0) v = true /\ fle v (F64.of_Z 1) = true))))
    (fig_image fig).
Proof.
  unfold imshow. cbv zeta.
  destruct (negb _); [discriminate|].
  destruct (map_result (map_result denormalize_pixel) _)
    as [img|]; [|discriminate].
  destruct (concat _); [discriminate|].
  intros [= <-]. cbn [fig_image].
  apply Forall_map, Forall_forall. intros row _.
  apply Forall_map, Forall_forall. intros px _.
  apply Forall_map, Forall_forall. intros v _.
  destruct (np_clip_unit v) as [Hn Hr]. cbv zeta in Hn, Hr.
  destruct (is_nan v) eqn:Hv.
  - left. exact Hn.
  - right. apply Hr. reflexivity.
Qed.

(** Channel by channel and level by level: the value [imshow] displays
    for a normalised 8-bit level is within 2^-23 of that level. *)
Lemma denormalize_levels_checked :
  forallb
    (fun k : Z =>
       forallb
         (fun c : spec_float * spec_float =>
            let n := F32.div (F32.sub (ToTensor_level k) (F32.of_F64 (snd c)))
                             (F32.of_F64 (fst c)) in
            let v := np_clip (f64_add (f64_mul (fst c) n) (snd c))
                             (F64.of_Z 0) (F64.of_Z 1) in
            match SF2Q v with
            | Some q =>
                Qle_bool (Qabs (q - inject_Z k / 255)%Q) (Qpower 2 (-23))
            | None => false
            end)
         (zip imagenet_std imagenet_mean))
    (map Z.of_nat (seq 0 256)) = true.
Proof. vm_compute. reflexivity. Qed.

Lemma denormalize_level (k : Z) (s m : spec_float) :
  (0 <= k <= 255)%Z -> In (s, m) (zip imagenet_std imagenet_mean) ->
  exists q,
    SF2Q (np_clip
            (f64_add (f64_mul s (F32.div (F32.sub (ToTensor_level k)
                                                  (F32.of_F64 m))
                                         (F32.of_F64 s))) m)
            (F64.of_Z 0) (F64.of_Z 1)) = Some q
    /\ (Qabs (q - inject_Z k / 255) <= Qpower 2 (-23))%Q.
Proof.
  intros Hk Hin.
  pose proof (proj1 (forallb_forall _ _) denormalize_levels_checked _
                (scale_in_range _ Hk)) as Hc.
  cbv beta in Hc.
  pose proof (proj1 (forallb_forall _ _) Hc _ Hin) as Hc'.
  cbv beta zeta in Hc'. cbn [fst snd] in Hc'.
  match type of Hc' with
  | match SF2Q ?v with _ => _ end = true =>
      destruct (SF2Q v) as [q|]; [|discriminate]
  end.
  exists q. split; [reflexivity|]. apply Qle_bool_iff. exact Hc'.
Qed.

(** X2. [imshow] undoes the normalisation of the transform: for a pixel
    whose three channels hold 8-bit levels, turned into a tensor by
    [ToTensor] and normalised with the fixed mean and std, the three
    values displayed are within 2^-23 of the levels over 255. *)
Theorem imshow_inverts_normalize (kr kg kb : Z) (title : option string) :
  (0 <= kr <= 255)%Z -> (0 <= kg <= 255)%Z -> (0 <= kb <= 255)%Z ->
  exists r g b qr qg qb,
    imshow (map (fun v => [[v]])
                (Normalize imagenet_mean imagenet_std
                   [ToTensor_level kr; ToTensor_level kg; ToTensor_level kb]))
           title
    = Ok {| fig_image := [[[r; g; b]]]; fig_title := title |}
    /\ SF2Q r = Some qr /\ SF2Q g = Some qg /\ SF2Q b = Some qb
    /\ (Qabs (qr - inject_Z kr / 255) <= Qpower 2 (-23))%Q
    /\ (Qabs (qg - inject_Z kg / 255) <= Qpower 2 (-23))%Q
    /\ (Qabs (qb - inject_Z kb / 255) <= Qpower 2 (-23))%Q.
Proof.
  intros Hr Hg Hb.
  destruct (denormalize_level kr (F64.dec 229 3) (F64.dec 485 3) Hr)
    as (qr & Hqr & Her); [left; reflexivity|].
  destruct (denormalize_level kg (F64.dec 224 3) (F64.dec 456 3) Hg)
    as (qg & Hqg & Heg); [right; left; reflexivity|].
  destruct (denormalize_level kb (F64.dec 225 3) (F64.dec 406 3) Hb)
    as (qb & Hqb & Heb); [right; right; left; reflexivity|].
  eexists _, _, _, qr, qg, qb.
  split; [reflexivity|].
  split; [exact Hqr|]. split; [exact Hqg|]. split; [exact Hqb|].
  split; [exact Her|]. split; [exact Heg | exact Heb].
Qed.

Lemma zip_with_cons_shape {A} (P : A -> Prop) (row : list A)
    (T : list (list A)) (k r : nat) :
  length row = k -> Forall P row -> length T = k ->
  Forall (fun col => length col = r /\ Forall P col) T ->
  length (zip_with cons row T) = k
  /\ Forall (fun col => length col = S r /\ Forall P col)
            (zip_with cons row T).
Proof.
  revert T k. induction row as [|x row IH]; intros T k Hk HP HT HF.
  - cbn. subst k. split; [reflexivity | constructor].
  - destruct T as [|col T]; [cbn in *; lia|].
    apply Forall_cons in HF as [[Hc HPc] HF].
    apply Forall_cons in HP as [Hx HP].
    destruct k as [|k]; [discriminate|].
    destruct (IH T k ltac:(cbn in *; lia) HP ltac:(cbn in *; lia) HF)
      as [Hl Hf].
    cbn [zip_with length]. split; [rewrite Hl; reflexivity|].
    constructor; [|exact Hf]. split; [cbn; rewrite Hc; reflexivity|].
    constructor; assumption.
Qed.

(** Transposing [S r] rows of length [k] gives [k] rows of length
    [S r], made of the same elements. *)
Lemma transpose_shape {A} (P : A -> Prop) (m : list (list A)) (r k : nat) :
  length m = S r ->
  Forall (fun row => length row = k /\ Forall P row) m ->
  length (transpose m) = k
  /\ Forall (fun col => length col = S r /\ Forall P col) (transpose m).
Proof.
  revert r. induction m as [|row rest IH]; intros r Hlen Hrows; [discriminate|].
  apply Forall_cons in Hrows as [[Hk HP] Hrest].
  destruct rest as [|row2 rest'].
  - cbn [transpose]. injection Hlen as <-. split.
    + rewrite length_map. exact Hk.
    + apply Forall_map. apply (Forall_impl _ _ _ HP).
      intros x Hx. split; [reflexivity | repeat constructor; exact Hx].
  - destruct r as [|r']; [discriminate|].
    destruct (IH r' ltac:(cbn in *; lia) Hrest) as [IHl IHf].
    change (transpose (row :: row2 :: rest'))
      with (zip_with cons row (transpose (row2 :: rest'))).
    apply zip_with_cons_shape; assumption.
Qed.

Lemma map_result_ok {A B} (f : A -> Result B) (Q : B -> Prop) (l : list A) :
  Forall (fun a => exists b, f a = Ok b /\ Q b) l ->
  exists bs, map_result f l = Ok bs /\ length bs = length l /\ Forall Q bs.
Proof.
  induction 1 as [|a l (b & Hb & HQ) _ (bs & Hbs & Hl & HF)].
  - exists []. repeat split; constructor.
  - exists (b :: bs). cbn [map_result]. rewrite Hb, Hbs.
    split; [reflexivity|]. split; [cbn; rewrite Hl; reflexivity|].
    constructor; assumption.
Qed.

Lemma denormalize_pixel_channels (px : list spec_float) :
  (length px = 1%nat \/ length px = 3%nat ->
   exists out, denormalize_pixel px = Ok out /\ length out = 3%nat)
  /\ (length px <> 1%nat -> length px <> 3%nat ->
      denormalize_pixel px = Raise ValueError).
Proof.
  destruct px as [|a [|b [|c [|d px]]]]; cbn [length]; split;
    try (intros [H|H]; discriminate H);
    try (intros H1 H3; first [reflexivity | contradiction]).
  - intros _. eexists. split; reflexivity.
  - intros _. eexists. split; reflexivity.
Qed.

(** The tensor after [transpose((1, 2, 0))]: [H] rows of [W] pixels of
    [C] channels. *)
Lemma transpose_1_2_0_shape (t : list (list (list spec_float))) (C H W : nat) :
  length t = S C ->
  Forall (fun plane => length plane = H
                       /\ Forall (fun row => length row = W) plane) t ->
  length (transpose_1_2_0 t) = H
  /\ Forall (fun row => length row = W
                        /\ Forall (fun px => length px = S C) row)
            (transpose_1_2_0 t).
Proof.
  intros Hlen Hsh. unfold transpose_1_2_0.
  destruct (transpose_shape (fun row => length row = W) t C H Hlen Hsh)
    as [Hl Hf].
  split; [rewrite length_map; exact Hl|].
  apply Forall_map. apply (Forall_impl _ _ _ Hf). intros cols [Hc Hrows].
  destruct (transpose_shape (fun _ => True) cols C W Hc) as [Hl2 Hf2].
  { apply (Forall_impl _ _ _ Hrows). intros row Hr. split; [exact Hr|].
    apply Forall_forall. intros; exact I. }
  split; [exact Hl2|]. apply (Forall_impl _ _ _ Hf2). intros px [Hp _]. exact Hp.
Qed.

(** A list of rows has no element exactly when every row is empty. *)
Lemma concat_nil_Forall {A} (l : list (list A)) :
  concat l = [] <-> Forall (fun r => r = []) l.
Proof.
  induction l as [|r l IH]; cbn [concat].
  - split; [constructor | reflexivity].
  - split.
    + intros Happ. apply app_eq_nil in Happ as [-> Hl].
      constructor; [reflexivity | apply IH; exact Hl].
    + intros HF. apply Forall_cons in HF as [-> HF].
      apply IH. exact HF.
Qed.

(** With three channels, or one, lines 21-25 always go through: the
    clipped array has [H] rows of [W] pixels of three values. *)
Lemma imshow_clipped_shape (t : list (list (list spec_float))) (C H W : nat) :
  length t = C -> C = 1%nat \/ C = 3%nat ->
  Forall (fun plane => length plane = H
                       /\ Forall (fun row => length row = W) plane) t ->
  exists img,
    map_result (map_result denormalize_pixel) (transpose_1_2_0 t) = Ok img
    /\ length (map (map (map (fun v => np_clip v (F64.of_Z 0) (F64.of_Z 1))))
                   img) = H
    /\ Forall (fun row => length row = W
                          /\ Forall (fun px => length px = 3%nat) row)
              (map (map (map (fun v => np_clip v (F64.of_Z 0) (F64.of_Z 1))))
                   img).
Proof.
  intros Hlen HC13 Hsh.
  destruct C as [|C']; [destruct HC13; discriminate|].
  destruct (transpose_1_2_0_shape t C' H W Hlen Hsh) as [Hl Hf].
  set (T := transpose_1_2_0 t) in *.
  destruct (map_result_ok (map_result denormalize_pixel)
              (fun row => length row = W
                          /\ Forall (fun px => length px = 3%nat) row) T)
    as (img & Himg & Hil & Hif).
  { apply (Forall_impl _ _ _ Hf). intros row [Hw Hpx].
    destruct (map_result_ok denormalize_pixel
                (fun px => length px = 3%nat) row)
      as (out & Hout & Hol & Hof).
    { apply (Forall_impl _ _ _ Hpx). intros px Hp.
      apply (proj1 (denormalize_pixel_channels px)). lia. }
    exists out. split; [exact Hout|]. split; [lia | exact Hof]. }
  exists img. split; [exact Himg|]. split; [rewrite length_map; lia|].
  apply Forall_map. apply (Forall_impl _ _ _ Hif). intros row [Hw Hpx].
  split; [rewrite length_map; exact Hw|].
  apply Forall_map. apply (Forall_impl _ _ _ Hpx). intros px Hp.
  rewrite length_map. exact Hp.
Qed.

(** X3. The shape decides what [imshow] does with a tensor of [C] planes
    of [H] rows of [W] values.  With three channels, or with one, which
    numpy broadcasts against the three constants, and at least one pixel,
    it shows [H] rows of [W] pixels of three values and sets the title
    it was given; with three channels or one and no pixel ([H] or [W] is
    0) it raises [ValueError], from [plt.imshow]; with any other number
    of channels, none included, it raises [ValueError], numpy's
    broadcasting error, whatever [H] and [W] are. *)
Theorem imshow_channels (t : list (list (list spec_float))) (C H W : nat)
    (title : option string) :
  length t = C ->
  Forall (fun plane => length plane = H
                       /\ Forall (fun row => length row = W) plane) t ->
  (C = 1%nat \/ C = 3%nat -> (1 <= H)%nat -> (1 <= W)%nat ->
   exists fig,
     imshow t title = Ok fig
     /\ fig_title fig = title
     /\ length (fig_image fig) = H
     /\ Forall (fun row => length row = W
                           /\ Forall (fun px => length px = 3%nat) row)
               (fig_image fig))
  /\ (C = 1%nat \/ C = 3%nat -> H = 0%nat \/ W = 0%nat ->
      imshow t title = Raise ValueError)
  /\ (C <> 1%nat -> C <> 3%nat -> imshow t title = Raise ValueError).
Proof.
  intros Hlen Hsh. unfold imshow. cbv zeta. rewrite Hlen.
  split; [|split].
  - intros HC13 HH HW.
    destruct (imshow_clipped_shape t C H W Hlen HC13 Hsh)
      as (img & Himg & Hil & Hif).
    replace (negb ((C =? 1)%nat || (C =? 3)%nat)) with false
      by (destruct HC13 as [-> | ->]; reflexivity).
    rewrite Himg.
    set (shown := map (map (map (fun v =>
                   np_clip v (F64.of_Z 0) (F64.of_Z 1)))) img) in *.
    destruct (concat shown) as [|px pxs] eqn:Hcat.
    + apply concat_nil_Forall in Hcat.
      destruct shown as [|row rows]; [cbn in Hil; lia|].
      apply Forall_cons in Hcat as [-> _].
      apply Forall_cons in Hif as [[Hw _] _]. cbn in Hw. lia.
    + eexists. split; [reflexivity|]. cbn [fig_title fig_image].
      split; [reflexivity|]. split; [exact Hil | exact Hif].
  - intros HC13 H0.
    destruct (imshow_clipped_shape t C H W Hlen HC13 Hsh)
      as (img & Himg & Hil & Hif).
    replace (negb ((C =? 1)%nat || (C =? 3)%nat)) with false
      by (destruct HC13 as [-> | ->]; reflexivity).
    rewrite Himg.
    set (shown := map (map (map (fun v =>
                   np_clip v (F64.of_Z 0) (F64.of_Z 1)))) img) in *.
    replace (concat shown) with (@nil (list spec_float)); [reflexivity|].
    symmetry. apply concat_nil_Forall.
    destruct H0 as [-> | ->].
    + destruct shown; [constructor | discriminate].
    + apply (Forall_impl _ _ _ Hif). intros row [Hw _].
      destruct row; [reflexivity | discriminate].
  - intros H1 H3.
    replace (negb ((C =? 1)%nat || (C =? 3)%nat)) with true; [reflexivity|].
    symmetry. apply negb_true_iff. apply orb_false_iff.
    split; apply Nat.eqb_neq; assumption.
Qed.

(* ===================================================================== *)
(** ** Further facts: the output paths *)
(* ===================================================================== *)

Lemma string_app_inv_head (p a b : string) : p ++ a = p ++ b -> a = b.
Proof.
  induction p as [|c p IH]; cbn; [auto|]. intros [= H]. auto.
Qed.

Lemma all_digits_pretty_N_char (x : N) : is_digit (pretty_N_char x) = true.
Proof.
  unfold pretty_N_char.
  repeat match goal with
         | |- context [match ?y with _ => _ end] => destruct y
         end; reflexivity.
Qed.

Lemma all_digits_pretty_N_go (x : N) (s : string) :
  all_digits s = true -> all_digits (pretty_N_go x s) = true.
Proof.
  revert s. induction (N.lt_wf_0 x) as [x _ IH]. intros s Hs.
  destruct (N.eq_dec x 0%N) as [->|Hx].
  - rewrite pretty_N_go_0. exact Hs.
  - rewrite pretty_N_go_step by lia. apply IH.
    + apply N.div_lt; lia.
    + cbn [all_digits]. rewrite all_digits_pretty_N_char, Hs. reflexivity.
Qed.

Lemma all_digits_str_nat (n : nat) : all_digits (str_nat n) = true.
Proof.
  unfold str_nat, pretty, pretty_nat, pretty, pretty_N.
  destruct (decide (N.of_nat n = 0%N)); [reflexivity|].
  apply all_digits_pretty_N_go. reflexivity.
Qed.

(** A run of digits followed by a character that is no digit: the run
    and the rest are determined by the whole. *)
Lemma digits_prefix_unique (u u' r r' : string) (c c' : ascii) :
  all_digits u = true -> all_digits u' = true ->
  is_digit c = false -> is_digit c' = false ->
  u ++ String c r = u' ++ String c' r' ->
  u = u' /\ c = c' /\ r = r'.
Proof.
  revert u'. induction u as [|a u IH]; intros [|a' u'] Hu Hu' Hc Hc'; cbn.
  - intros [= -> ->]. auto.
  - intros [= -> _]. cbn in Hu'. rewrite Hc in Hu'. discriminate.
  - intros [= -> _]. cbn in Hu. rewrite Hc' in Hu. discriminate.
  - intros [= -> H]. cbn in Hu, Hu'.
    apply andb_true_iff in Hu as [_ Hu]. apply andb_true_iff in Hu' as [_ Hu'].
    destruct (IH u' Hu Hu' Hc Hc' H) as (-> & -> & ->). auto.
Qed.

(** X4. For one image path and one attack name, the archive name
    determines the class pair: two different (source, destination)
    pairs never share a file name. *)
Theorem sample_name_inj (p name : string) (s d s' d' : nat) :
  sample_name p name s d = sample_name p name s' d' ->
  s = s' /\ d = d'.
Proof.
  unfold sample_name. intros H.
  apply string_app_inv_head in H.
  apply (string_app_inv_head "_") in H.
  apply string_app_inv_head in H.
  apply (string_app_inv_head "_src") in H.
  change (str_nat s ++ String "_" ("dst" ++ str_nat d ++ ".npz")
          = str_nat s' ++ String "_" ("dst" ++ str_nat d' ++ ".npz")) in H.
  apply digits_prefix_unique in H as (Hs & _ & H);
    [| apply all_digits_str_nat | apply all_digits_str_nat
     | reflexivity | reflexivity].
  apply (string_app_inv_head "dst") in H.
  change (str_nat d ++ String "." "npz" = str_nat d' ++ String "." "npz") in H.
  apply digits_prefix_unique in H as (Hd & _ & _);
    [| apply all_digits_str_nat | apply all_digits_str_nat
     | reflexivity | reflexivity].
  split; [exact (pretty_nat_inj _ _ Hs) | exact (pretty_nat_inj _ _ Hd)].
Qed.

Lemma starts_with_sep_sample_name (p name : string) (s d : nat) :
  starts_with_sep (sample_name p name s d) = starts_with_sep p.
Proof. unfold sample_name. destruct p; reflexivity. Qed.

(** X5. Where the archive lands: for an absolute image path
    [os.path.join] drops the output folder and the archive is written
    beside the original image; for any other path the archive is the
    output folder, a separator unless the folder is empty or ends with
    one, and the sample name. *)
Theorem output_path_absolute_or_under_out (out p name : string) (s d : nat) :
  (starts_with_sep p = true ->
   os_path_join out (sample_name p name s d) = sample_name p name s d)
  /\ (starts_with_sep p = false ->
      os_path_join out (sample_name p name s d)
      = out ++ (if bool_decide (out = "") || ends_with_sep out
                then "" else "/")
            ++ sample_name p name s d).
Proof.
  unfold os_path_join. rewrite starts_with_sep_sample_name.
  split; intros ->.
  - reflexivity.
  - destruct (bool_decide (out = "") || ends_with_sep out); reflexivity.
Qed.

(* ===================================================================== *)
(** ** Further facts: options, names and parameters *)
(* ===================================================================== *)

(** X6. The norm order never reaches an attack as anything but
    infinity, 1 or 2: a value of [--ord] outside -1, 1, 2 is refused by
    the parser, and after line 62 the order of every parsed command line
    is one of the three, so the name suffix starts with [_Linf], [_L1]
    or [_L2]. *)
Theorem ord_is_inf_1_or_2 (c : bool) (a : Argv) :
  (forall o, argv_ord a = Some o -> o ∉ ord_choices ->
             parse_args c a = Raise (SystemExit 2))
  /\ (forall args, parse_args c a = Ok args ->
        let o := resolve_ord (ord args) in
        (o = OrdInf /\ str_ord o = "inf")
        \/ (o = OrdInt 1 /\ str_ord o = "1")
        \/ (o = OrdInt 2 /\ str_ord o = "2")).
Proof.
  split.
  - intros o Ho Hout. unfold parse_args. rewrite Ho.
    replace (check_choice ord_choices o) with (@Raise Z (SystemExit 2))
      by (unfold check_choice;
          destruct (decide (o ∈ ord_choices)); [contradiction|reflexivity]).
    destruct (argv_attack a) as [s|]; [|reflexivity].
    unfold check_choice.
    destruct (decide (s ∈ attack_choices)); reflexivity.
  - intros args Hp. cbv zeta. pose proof (parse_args_ord _ _ _ Hp) as Ho.
    destruct (argv_ord a) as [o|].
    + destruct Ho as [Hin ->]. unfold ord_choices in Hin.
      apply elem_of_cons in Hin as [->|Hin]; [left; split; reflexivity|].
      apply elem_of_cons in Hin as [->|Hin];
        [right; left; split; reflexivity|].
      apply elem_of_cons in Hin as [->|Hin];
        [right; right; split; reflexivity|].
      apply elem_of_nil in Hin. destruct Hin.
    + rewrite Ho. left. split; reflexivity.
Qed.

Lemma string_app_assoc (a b c : string) : (a ++ b) ++ c = a ++ b ++ c.
Proof.
  induction a as [|x a IH]; [reflexivity|].
  change (String x ((a ++ b) ++ c) = String x (a ++ b ++ c)).
  f_equal. exact IH.
Qed.

(** X7. The name that goes into the archive names, per attack: fgsm
    carries the order and the budget, the three iterative attacks add
    the fixed step [_epsi20] and count [_i10], and jsma, deepfool, cw and
    lbfgs carry nothing, so for them runs with different budgets or
    orders write to the same names. *)
Theorem attack_name_table (args : Namespace) (name : string)
    (eps_n eps_iter_n : spec_float) (draw : Z) :
  name ∈ attack_choices -> attack args = AttackStr name ->
  (0 <= draw < 1000)%Z ->
  exists L,
    select_attack args eps_n eps_iter_n draw = Ok L
    /\ attack_add (attack args) (attack_name L)
       = Ok (name ++
             if bool_decide (name = "fgsm")
             then "_L" ++ str_ord (ord args) ++ "_eps" ++ str_int (eps args)
             else if bool_decide (name = "iter") || bool_decide (name = "m-iter")
                     || bool_decide (name = "pgd")
             then "_L" ++ str_ord (ord args) ++ "_eps" ++ str_int (eps args)
                  ++ "_epsi20_i10"
             else "").
Proof.
  intros Hin Ha Hd. unfold select_attack. rewrite Ha.
  attack_cases Hin; select_branch.
  1: rewrite np_setitem0_one_hot by exact Hd.
  all: eexists; (split; [reflexivity|]); cbn [attack_add attack_name];
       do 2 f_equal.
  all: repeat first
         [ rewrite bool_decide_eq_true_2 by reflexivity
         | rewrite bool_decide_eq_false_2 by discriminate ].
  all: cbn [orb]; unfold iter_suffix, grad_suffix;
       change (str_int eps_iter) with "20";
       change (str_int nb_iter) with "10";
       rewrite ?string_app_assoc; reflexivity.
Qed.

Lemma iter_dict_lookup (e ei : spec_float) (o : ord_val) :
  let m := dict_merge (dict_merge common_params (grad_params e o))
                      (iter_params ei) in
  m !! "eps_iter" = Some (VFloat ei)
  /\ m !! "nb_iter" = Some (VInt 10)
  /\ m !! "eps" = Some (VFloat e).
Proof. cbv zeta. split; [|split]; dict_lookup. Qed.

(** X8. The step and the count of the iterative attacks are fixed: for
    iter, m-iter and pgd, whatever the command line, the parameters are
    [eps_iter = 20/255.] and [nb_iter = 10], beside the budget of the
    command line. *)
Theorem iter_params_fixed (args : Namespace) (name : string) (draw : Z)
    (v : spec_float) :
  name ∈ ["iter"; "m-iter"; "pgd"] -> attack args = AttackStr name ->
  int_div_float (eps args) (F64.of_Z 255) = Ok v ->
  exists args' L m,
    attack_construction args draw = Ok (args', L)
    /\ attack_params L = Some m
    /\ m !! "eps_iter" = Some (VFloat (F64.div (F64.of_Z 20) (F64.of_Z 255)))
    /\ m !! "nb_iter" = Some (VInt 10)
    /\ m !! "eps" = Some (VFloat v).
Proof.
  intros Hin Ha Hv. rewrite (attack_construction_eq _ draw _ Hv).
  unfold select_attack. cbn [attack set_ord]. rewrite Ha.
  repeat (apply elem_of_cons in Hin as [Hin|Hin]; [subst | ]);
    [ .. | apply elem_of_nil in Hin; destruct Hin ];
    select_branch; eexists _, _, _;
    (split; [reflexivity|]); (split; [reflexivity|]);
    apply iter_dict_lookup.
Qed.

Lemma argmax_from_bound (mp : spec_float) (best i : nat) (l : list spec_float) :
  (best < i)%nat -> (argmax_from mp best i l < i + length l)%nat.
Proof.
  revert mp best i. induction l as [|v l IH]; intros mp best i Hb.
  - cbn. lia.
  - cbn [argmax_from length]. destruct (is_nan mp); [lia|].
    destruct (fle v mp).
    + specialize (IH mp best (S i)). lia.
    + specialize (IH v i (S i)). lia.
Qed.

Lemma np_argmax_ok (row : list spec_float) :
  row <> [] -> exists i, np_argmax row = Ok i /\ (i < length row)%nat.
Proof.
  intros Hne. destruct row as [|v l]; [contradiction|].
  eexists. split; [reflexivity|].
  pose proof (argmax_from_bound v 0 1 l). cbn [length]. lia.
Qed.

(** X9. The classes printed in an archive name are indices of the
    logits row: [np.argmax] of a row returns a position inside the row,
    and an empty row is an error. *)
Theorem np_argmax_in_range (row : list spec_float) :
  (row = [] -> np_argmax row = Raise ValueError)
  /\ (row <> [] -> exists i, np_argmax row = Ok i /\ (i < length row)%nat).
Proof.
  split.
  - intros ->. reflexivity.
  - apply np_argmax_ok.
Qed.

(* ===================================================================== *)
(** ** Further facts: the loader's batches and the counters *)
(* ===================================================================== *)

Lemma batch_sampler_sizes (bs : nat) (idxs batch : list nat) :
  (length batch < bs)%nat ->
  Forall (fun b => (1 <= length b <= bs)%nat) (batch_sampler bs batch idxs)
  /\ (forall k b,
        (S k < length (batch_sampler bs batch idxs))%nat ->
        batch_sampler bs batch idxs !! k = Some b -> length b = bs).
Proof.
  revert batch. induction idxs as [|i rest IH]; intros batch Hlt.
  - cbn [batch_sampler]. destruct batch as [|x batch'].
    + split; [constructor|]. intros k b Hk. cbn in Hk. lia.
    + split.
      * constructor; [cbn in *; lia | constructor].
      * intros k b Hk. cbn in Hk. lia.
  - cbn [batch_sampler]. cbv zeta.
    assert (Hlen : length (batch ++ [i]) = S (length batch))
      by (rewrite length_app; cbn; lia).
    destruct (Nat.eqb_spec (length (batch ++ [i])) bs) as [Heq|Hne].
    + destruct (IH [] ltac:(cbn; lia)) as [IHf IHk]. split.
      * constructor; [lia | exact IHf].
      * intros [|k] b Hk Hb.
        -- cbn in Hb. injection Hb as <-. exact Heq.
        -- cbn [length] in Hk. apply (IHk k b); [lia | exact Hb].
    + apply IH. lia.
Qed.

(** X10. The batches of the loader [main] builds: with shuffling off
    and a batch size [bs], every batch holds between 1 and [bs] indices,
    every batch but the last holds exactly [bs], and together they are
    the indices of the dataset in order; a batch size below 1 is
    refused. *)
Theorem DataLoader_batch_sizes (perm : nat -> list nat) (n : nat) (bs : Z) :
  ((bs <= 0)%Z -> DataLoader perm n false bs = Raise ValueError)
  /\ ((0 < bs)%Z ->
      exists batches,
        DataLoader perm n false bs = Ok batches
        /\ concat batches = seq 0 n
        /\ Forall (fun b => (1 <= Z.of_nat (length b) <= bs)%Z) batches
        /\ (forall k b, (S k < length batches)%nat ->
                        batches !! k = Some b ->
                        Z.of_nat (length b) = bs)).
Proof.
  unfold DataLoader. split; intros Hbs.
  - destruct (Z.leb_spec bs 0); [reflexivity | lia].
  - destruct (Z.leb_spec bs 0); [lia|].
    eexists. split; [reflexivity|].
    split; [apply batch_sampler_concat|].
    destruct (batch_sampler_sizes (Z.to_nat bs) (seq 0 n) [])
      as [Hf Hk]; [cbn; lia|].
    split.
    + apply (Forall_impl _ _ _ Hf). intros b Hb. lia.
    + intros k b Hlt Hb. rewrite (Hk k b Hlt Hb). lia.
Qed.

(* ===================================================================== *)
(** ** Further facts: what a run writes *)
(* ===================================================================== *)

Section WrittenFacts.

Variable Img : Type.
Variable ImageDataset : string -> list (string * Img).
Variable torch_randperm : nat -> list nat.
Variable np_random_randint : Z -> Z.
Variable cuda_available : bool.
Variable tf_model : Img -> list spec_float.
Variable attack_generate :
  AttackOp -> gmap string PyVal -> list (list spec_float) -> Img -> Img.

Local Abbreviation step := (batch_step Img tf_model attack_generate).
Local Abbreviation loop := (batch_loop Img tf_model attack_generate).
Local Abbreviation run_main :=
  (main Img ImageDataset torch_randperm np_random_randint tf_model
        attack_generate).
Local Abbreviation run_script :=
  (script Img ImageDataset torch_randperm np_random_randint cuda_available
          tf_model attack_generate).
Local Abbreviation writes := (sample_write Img tf_model attack_generate).
Local Abbreviation entries := (batch_entries Img).

Lemma write_all_app (l1 l2 : list (string * Img))
    (m : gmap string (gmap string Img)) :
  write_all Img (l1 ++ l2)%list m = write_all Img l2 (write_all Img l1 m).
Proof. unfold write_all. apply fold_left_app. Qed.

(** An archive found after a series of writes was there before or is
    one of those written. *)
Lemma write_all_lookup (l : list (string * Img))
    (m : gmap string (gmap string Img)) (k : string) (v : gmap string Img) :
  write_all Img l m !! k = Some v ->
  m !! k = Some v \/ exists a, (k, a) ∈ l /\ v = {[ "img" := a ]}.
Proof.
  revert m. induction l as [|[k' a'] l IH]; intros m; cbn.
  - auto.
  - intros H. destruct (IH _ H) as [Hm | (a & Hin & Hv)].
    + destruct (decide (k' = k)) as [->|Hne].
      * rewrite lookup_insert_eq in Hm. injection Hm as <-.
        right. exists a'. split; [left | reflexivity].
      * rewrite lookup_insert_ne in Hm by exact Hne. left. exact Hm.
    + right. exists a. split; [right; exact Hin | exact Hv].
Qed.

(** Every path written holds, afterwards, one of the arrays written to
    it; a path that was present stays present. *)
Lemma write_all_present (l : list (string * Img))
    (m : gmap string (gmap string Img)) (k : string) :
  (is_Some (m !! k) \/ exists a, (k, a) ∈ l) ->
  is_Some (write_all Img l m !! k).
Proof.
  revert m. induction l as [|[k' a'] l IH]; intros m; cbn.
  - intros [H | (a & Hin)]; [exact H | inversion Hin].
  - intros H. apply IH.
    destruct (decide (k' = k)) as [->|Hne].
    + left. rewrite lookup_insert_eq. eexists. reflexivity.
    + rewrite lookup_insert_ne by exact Hne.
      destruct H as [H | (a & Hin)]; [left; exact H|].
      apply elem_of_cons in Hin as [[= -> ->] | Hin]; [contradiction|].
      right. exists a. exact Hin.
Qed.

Lemma fetch_entries (dataset : list (string * Img)) (idxs : list nat)
    (ps : list string) (xs : list Img) :
  fetch Img dataset idxs = Ok (ps, xs) ->
  ps = map fst (entries dataset idxs) /\ xs = map snd (entries dataset idxs).
Proof.
  revert ps xs. induction idxs as [|i rest IH]; intros ps xs.
  - intros [= <- <-]. split; reflexivity.
  - cbn [fetch]. destruct (dataset !! i) as [[p x]|] eqn:Hl; [|discriminate].
    destruct (fetch Img dataset rest) as [[ps' xs']|]; [|discriminate].
    intros [= <- <-]. destruct (IH ps' xs' eq_refl) as [-> ->].
    unfold batch_entries. cbn [omap list_omap]. rewrite Hl.
    split; reflexivity.
Qed.

(** The saving loop on the masked lists, when it completes, has written
    sample by sample what [sample_write] says. *)
Lemma save_masked (out name : string) (op : AttackOp)
    (params : gmap string PyVal) (tgt : list (list spec_float))
    (es : list (string * Img)) :
  forall (src dst : list nat) (w w' : World Img),
  argmax_rows (map tf_model (map snd es)) = Ok src ->
  argmax_rows (map tf_model (map (attack_generate op params tgt)
                                 (map snd es))) = Ok dst ->
  save_samples Img out name
    (np_mask (map fst es) (np_ne src dst))
    (np_mask (map (attack_generate op params tgt) (map snd es))
             (np_ne src dst))
    (np_mask src (np_ne src dst)) (np_mask dst (np_ne src dst)) w
  = (Ok tt, w') ->
  fs w' = write_all Img (flat_map (writes out name op params tgt) es) (fs w).
Proof.
  induction es as [|[p x] es IH]; intros src dst w w'.
  - intros [= <-] [= <-] [= <-]. reflexivity.
  - cbn [map argmax_rows flat_map]. unfold sample_write at 1. cbn [fst snd].
    destruct (np_argmax (tf_model x)) as [s|]; [|discriminate].
    destruct (argmax_rows (map tf_model (map snd es))) as [src'|] eqn:Hs;
      [|discriminate].
    intros [= <-].
    destruct (np_argmax (tf_model (attack_generate op params tgt x)))
      as [d|]; [|discriminate].
    destruct (argmax_rows
                (map tf_model (map (attack_generate op params tgt)
                                   (map snd es)))) as [dst'|] eqn:Hd;
      [|discriminate].
    intros [= <-]. unfold np_ne. cbn [zip_with np_mask].
    fold (np_ne src' dst').
    destruct (s =? d)%nat; cbn [negb].
    + apply (IH src' dst' w w' eq_refl eq_refl).
    + cbn [save_samples]. unfold bind, savez_compressed.
      destruct (open_error w (os_path_join out (sample_name p name s d)));
        [discriminate|].
      intros Hsv. rewrite (IH src' dst' _ w' eq_refl eq_refl Hsv).
      reflexivity.
Qed.

(** One completed iteration writes the archives of its batch. *)
Lemma batch_step_files (args : Namespace) (L : Locals) (name : string)
    (op : AttackOp) (params : gmap string PyVal)
    (dataset : list (string * Img)) (cnt cnt' : Z * Z) (idxs : list nat)
    (w w' : World Img) (tgt : list (list spec_float)) :
  target L = Some tgt ->
  step args L name op params dataset cnt idxs w = (Ok cnt', w') ->
  fs w' = write_all Img
            (flat_map (writes (out_folder args) name op params tgt)
                      (entries dataset idxs))
            (fs w).
Proof.
  intros Ht. unfold batch_step, bind, lift. destruct cnt as [ns np].
  destruct (fetch Img dataset idxs) as [[ps xs]|] eqn:Hf; [|discriminate].
  destruct (fetch_entries _ _ _ _ Hf) as [-> ->].
  destruct (read_local "y" (y L)); [|discriminate].
  rewrite Ht. cbn [read_local].
  set (es := entries dataset idxs).
  destruct (argmax_rows (map tf_model (map snd es))) as [src|] eqn:Hs;
    [|discriminate].
  destruct (argmax_rows
              (map tf_model (map (attack_generate op params tgt)
                                 (map snd es)))) as [dst|] eqn:Hd;
    [|discriminate].
  destruct (int_truediv _ _) as [r|]; [|discriminate].
  unfold set_postfix.
  match goal with
  | |- context [save_samples Img ?o ?n ?p ?a ?s ?d ?w0] =>
      pose proof (save_masked o n op params tgt es src dst w0) as Hsm;
      destruct (save_samples Img o n p a s d w0) as [[[]|e] w1];
      [|discriminate]
  end.
  unfold ret. intros [= _ <-]. exact (Hsm w1 Hs Hd eq_refl).
Qed.

Lemma entries_concat_elem (dataset : list (string * Img))
    (batches : list (list nat)) (b : list nat) (e : string * Img) :
  b ∈ batches -> e ∈ entries dataset b ->
  e ∈ concat (map (entries dataset) batches).
Proof.
  intros Hb He. apply list_elem_of_In, in_concat.
  exists (entries dataset b). split.
  - apply in_map. apply list_elem_of_In. exact Hb.
  - apply list_elem_of_In. exact He.
Qed.

(** The loop, when it completes, has written the archives of all its
    batches, in order. *)
Lemma batch_loop_files (args : Namespace) (L : Locals) (name : string)
    (op : AttackOp) (params : gmap string PyVal)
    (dataset : list (string * Img)) (tgt : list (list spec_float))
    (batches : list (list nat)) :
  target L = Some tgt ->
  forall (cnt cnt' : Z * Z) (w w' : World Img),
  loop args L name op params dataset cnt batches w = (Ok cnt', w') ->
  fs w' = write_all Img
            (flat_map (writes (out_folder args) name op params tgt)
                      (concat (map (entries dataset) batches)))
            (fs w).
Proof.
  intros Ht. induction batches as [|b rest IH]; intros cnt cnt' w w'.
  - cbn [batch_loop]. unfold ret. intros [= _ <-]. reflexivity.
  - cbn [batch_loop]. unfold bind at 1.
    destruct (step args L name op params dataset cnt b w)
      as [[cnt1|e] w1] eqn:Hstep; [|discriminate].
    intros Hloop. rewrite (IH _ _ _ _ Hloop).
    rewrite (batch_step_files _ _ _ _ _ _ _ _ _ _ _ _ Ht Hstep).
    cbn [map concat]. rewrite flat_map_app, write_all_app. reflexivity.
Qed.

Lemma elem_of_sample_write (out name : string) (op : AttackOp)
    (params : gmap string PyVal) (tgt : list (list spec_float))
    (es : list (string * Img)) (k : string) (a : Img) :
  (k, a) ∈ flat_map (writes out name op params tgt) es <->
  exists p x s d,
    (p, x) ∈ es
    /\ np_argmax (tf_model x) = Ok s
    /\ np_argmax (tf_model (attack_generate op params tgt x)) = Ok d
    /\ s <> d
    /\ k = os_path_join out (sample_name p name s d)
    /\ a = attack_generate op params tgt x.
Proof.
  rewrite list_elem_of_In, in_flat_map. split.
  - intros ([p x] & Hin & Hw). apply list_elem_of_In in Hin.
    unfold sample_write in Hw. cbn [fst snd] in Hw.
    destruct (np_argmax (tf_model x)) as [s|] eqn:Hs; [|destruct Hw].
    destruct (np_argmax (tf_model (attack_generate op params tgt x)))
      as [d|] eqn:Hd; [|destruct Hw].
    destruct (Nat.eqb_spec s d) as [|Hne]; [destruct Hw|].
    destruct Hw as [[= <- <-]|[]].
    exists p, x, s, d.
    split; [exact Hin|]. split; [exact Hs|]. split; [exact Hd|].
    split; [exact Hne|]. split; reflexivity.
  - intros (p & x & s & d & Hin & Hs & Hd & Hne & -> & ->).
    exists (p, x). split; [apply list_elem_of_In; exact Hin|].
    unfold sample_write. cbn [fst snd]. rewrite Hs, Hd.
    destruct (Nat.eqb_spec s d); [contradiction|]. left. reflexivity.
Qed.

(** X11. A completed loop saves the flipped samples and nothing else:
    an archive found afterwards either was there before, unchanged, or
    is the adversarial array of a sample whose class moved from [s] to
    [d], stored under the single key [img] at
    [os.path.join(out_folder, '{path}_{name}_src{s}_dst{d}.npz')]; and
    every such sample has its archive. *)
Theorem loop_saves_exactly_flipped (args : Namespace) (L : Locals)
    (name : string) (op : AttackOp) (params : gmap string PyVal)
    (dataset : list (string * Img)) (tgt : list (list spec_float))
    (batches : list (list nat)) (cnt cnt' : Z * Z) (w w' : World Img) :
  target L = Some tgt ->
  loop args L name op params dataset cnt batches w = (Ok cnt', w') ->
  let es := concat (map (entries dataset) batches) in
  (forall path arch,
      fs w' !! path = Some arch ->
      fs w !! path = Some arch
      \/ exists p x s d,
           (p, x) ∈ es
           /\ np_argmax (tf_model x) = Ok s
           /\ np_argmax (tf_model (attack_generate op params tgt x)) = Ok d
           /\ s <> d
           /\ path = os_path_join (out_folder args) (sample_name p name s d)
           /\ arch = {[ "img" := attack_generate op params tgt x ]})
  /\ (forall p x s d,
        (p, x) ∈ es ->
        np_argmax (tf_model x) = Ok s ->
        np_argmax (tf_model (attack_generate op params tgt x)) = Ok d ->
        s <> d ->
        is_Some (fs w' !! os_path_join (out_folder args)
                                       (sample_name p name s d))).
Proof.
  intros Ht Hloop es.
  pose proof (batch_loop_files _ _ _ _ _ _ _ _ Ht _ _ _ _ Hloop) as Hfs.
  fold es in Hfs. split.
  - intros path arch Hl. rewrite Hfs in Hl.
    destruct (write_all_lookup _ _ _ _ Hl) as [Hold | (a & Hin & ->)].
    + left. exact Hold.
    + right. apply elem_of_sample_write in Hin
        as (p & x & s & d & Hin & Hs & Hd & Hne & -> & ->).
      exists p, x, s, d. repeat split; assumption.
  - intros p x s d Hin Hs Hd Hne. rewrite Hfs.
    apply write_all_present. right.
    exists (attack_generate op params tgt x).
    apply elem_of_sample_write. exists p, x, s, d.
    repeat split; assumption.
Qed.

(** The saving loop, the iteration and the loop only ever write,
    however they end. *)
Lemma save_samples_writes (out name : string) (ps : list string)
    (advs : list Img) (ss ds : list nat) (w : World Img) :
  exists l, fs (snd (save_samples Img out name ps advs ss ds w))
            = write_all Img l (fs w).
Proof.
  revert advs ss ds w. induction ps as [|p ps IH]; intros advs ss ds w.
  - exists []. reflexivity.
  - destruct advs as [|a advs]; [exists []; reflexivity|].
    destruct ss as [|s ss]; [exists []; reflexivity|].
    destruct ds as [|d ds]; [exists []; reflexivity|].
    cbn [save_samples]. unfold bind, savez_compressed.
    destruct (open_error w (os_path_join out (sample_name p name s d)));
      [exists []; reflexivity|].
    match goal with
    | |- context [save_samples Img out name ps advs ss ds ?w0] =>
        destruct (IH advs ss ds w0) as (l & Hf)
    end.
    exists ((os_path_join out (sample_name p name s d), a) :: l).
    exact Hf.
Qed.

Lemma batch_step_writes (args : Namespace) (L : Locals) (name : string)
    (op : AttackOp) (params : gmap string PyVal)
    (dataset : list (string * Img)) (cnt : Z * Z) (idxs : list nat)
    (w : World Img) :
  exists l,
    fs (snd (step args L name op params dataset cnt idxs w))
    = write_all Img l (fs w).
Proof.
  unfold batch_step, bind, lift. destruct cnt as [ns np].
  destruct (fetch Img dataset idxs) as [[ps xs]|]; [|exists []; reflexivity].
  destruct (read_local "y" (y L)); [|exists []; reflexivity].
  destruct (read_local "target" (target L)) as [tgt|];
    [|exists []; reflexivity].
  destruct (argmax_rows (map tf_model xs)) as [src|];
    [|exists []; reflexivity].
  destruct (argmax_rows _) as [dst|]; [|exists []; reflexivity].
  destruct (int_truediv _ _) as [r|]; [|exists []; reflexivity].
  unfold set_postfix.
  match goal with
  | |- context [save_samples Img ?o ?n ?p ?a ?s ?d ?w0] =>
      destruct (save_samples_writes o n p a s d w0) as (l & Hfs);
      destruct (save_samples Img o n p a s d w0) as [[[]|e] w1]
  end; cbn [snd] in Hfs |- *; exists l; exact Hfs.
Qed.

Lemma batch_loop_writes (args : Namespace) (L : Locals) (name : string)
    (op : AttackOp) (params : gmap string PyVal)
    (dataset : list (string * Img)) (batches : list (list nat)) :
  forall (cnt : Z * Z) (w : World Img),
  exists l,
    fs (snd (loop args L name op params dataset cnt batches w))
    = write_all Img l (fs w).
Proof.
  induction batches as [|b rest IH]; intros cnt w.
  - exists []. reflexivity.
  - cbn [batch_loop]. unfold bind at 1.
    destruct (batch_step_writes args L name op params dataset cnt b w)
      as (l1 & Hl1).
    destruct (step args L name op params dataset cnt b w)
      as [[cnt1|e] w1]; cbn [snd] in Hl1.
    + destruct (IH cnt1 w1) as (l2 & Hl2).
      exists (l1 ++ l2)%list. rewrite Hl2, Hl1, write_all_app. reflexivity.
    + exists l1. exact Hl1.
Qed.

(** X12. A run never removes a file: however it ends, with or without
    an exception and for any command line, every path that held an
    archive before it holds one after it. *)
Theorem run_keeps_files (a : Argv) (w : World Img) (path : string) :
  is_Some (fs w !! path) ->
  is_Some (fs (snd (run_script a w)) !! path).
Proof.
  intros Hp.
  assert (Hw : exists l, fs (snd (run_script a w)) = write_all Img l (fs w)).
  { unfold script, bind, lift.
    destruct (parse_args cuda_available a) as [args|];
      [|exists []; reflexivity].
    unfold main, bind, lift.
    destruct (DataLoader _ _ _ _) as [batches|]; [|exists []; reflexivity].
    destruct (attack_construction _ _) as [[args' L]|];
      [|exists []; reflexivity].
    destruct (attack_add _ _) as [name|]; [|exists []; reflexivity].
    destruct (read_local "attack_params" _) as [params|];
      [|exists []; reflexivity].
    destruct (read_local "attack_op" _) as [op|]; [|exists []; reflexivity].
    match goal with
    | |- context [batch_loop Img tf_model attack_generate ?a ?l ?n ?o ?p ?d ?c ?b w] =>
        destruct (batch_loop_writes a l n o p d b c w) as (l0 & Hl0);
        destruct (batch_loop Img tf_model attack_generate a l n o p d c b w)
          as [[cnt|e] w1]
    end; cbn [snd] in Hl0 |- *; exists l0; exact Hl0. }
  destruct Hw as (l & ->). apply write_all_present. left. exact Hp.
Qed.

(** X13. On an empty folder every accepted attack name runs to the end:
    the loop body, and with it the unbound [y] of the attacks other than
    lbfgs, is never reached; the run returns normally and changes
    nothing. *)
Theorem empty_folder_run_is_clean (a : Argv) (name : string)
    (args : Namespace) (v : spec_float) (w : World Img) :
  argv_attack a = Some name ->
  parse_args cuda_available a = Ok args ->
  int_div_float (eps args) (F64.of_Z 255) = Ok v ->
  (0 < batch_size args)%Z ->
  (0 <= np_random_randint 1000 < 1000)%Z ->
  ImageDataset (image_folder args) = [] ->
  run_script a w = (Ok tt, w).
Proof.
  intros Hs Hp Hv Hbs Hd Hds.
  destruct (parse_args_attack _ _ _ _ Hs Hp) as [Ha Hin].
  unfold script, bind, lift. rewrite Hp.
  unfold main, bind, lift. rewrite Hds. cbn [length].
  unfold DataLoader. destruct (Z.leb_spec (batch_size args) 0); [lia|].
  cbn [seq batch_sampler].
  rewrite (attack_construction_eq _ _ _ Hv).
  destruct (select_attack_table name
              (set_ord args (resolve_ord (ord args))) v
              (F64.div (F64.of_Z 20) (F64.of_Z 255))
              (np_random_randint 1000) Hin Ha Hd)
    as (L & m & HL & Hm & [op Hop] & _).
  rewrite HL. cbn [attack set_ord]. rewrite Ha, Hm, Hop. reflexivity.
Qed.

Lemma argmax_rows_total (xs : list Img) :
  (forall x, tf_model x <> []) ->
  exists l, argmax_rows (map tf_model xs) = Ok l.
Proof.
  intros Hne. induction xs as [|x xs [l IH]].
  - exists []. reflexivity.
  - cbn [map argmax_rows].
    destruct (np_argmax_ok (tf_model x) (Hne x)) as (i & Hi & _).
    rewrite Hi, IH. eexists. reflexivity.
Qed.

Lemma np_mask_elem {A} (l : list A) (mask : list bool) (x : A) :
  x ∈ np_mask l mask -> x ∈ l.
Proof.
  revert mask. induction l as [|a l IH]; intros [|b mask]; cbn [np_mask];
    try (intros H; inversion H; fail).
  destruct b.
  - intros H. apply elem_of_cons in H as [->|H]; [left | right; eauto].
  - intros H. right. eauto.
Qed.

Lemma batch_entries_elem (dataset : list (string * Img)) (idxs : list nat)
    (e : string * Img) :
  e ∈ entries dataset idxs -> e ∈ dataset.
Proof.
  unfold batch_entries. intros H.
  apply list_elem_of_omap in H as (i & _ & Hi).
  apply (list_elem_of_lookup_2 _ _ _ Hi).
Qed.

(** The saving loop completes when every path it may write can be
    opened. *)
Lemma save_samples_total (out name : string) (ps : list string)
    (advs : list Img) (ss ds : list nat) (w : World Img) :
  (forall p s d, p ∈ ps ->
     open_error w (os_path_join out (sample_name p name s d)) = None) ->
  exists w', save_samples Img out name ps advs ss ds w = (Ok tt, w')
             /\ open_error w' = open_error w.
Proof.
  revert advs ss ds w. induction ps as [|p ps IH]; intros advs ss ds w Hw.
  - eexists. split; reflexivity.
  - destruct advs as [|a advs]; [eexists; split; reflexivity|].
    destruct ss as [|s ss]; [eexists; split; reflexivity|].
    destruct ds as [|d ds]; [eexists; split; reflexivity|].
    cbn [save_samples]. unfold bind, savez_compressed.
    rewrite (Hw p s d) by left.
    match goal with
    | |- context [save_samples Img out name ps advs ss ds ?w0] =>
        destruct (IH advs ss ds w0) as (w' & Hsv & Ho)
    end.
    { intros p' s' d' Hp'. cbn [open_error]. apply Hw. right. exact Hp'. }
    exists w'. split; [exact Hsv | exact Ho].
Qed.

(** With [y] and [target] bound, a classifier that always returns at
    least one logit and archive paths that can be opened, an iteration
    over a non-empty batch of valid indices completes. *)
Lemma batch_step_total (args : Namespace) (L : Locals) (name : string)
    (op : AttackOp) (params : gmap string PyVal)
    (dataset : list (string * Img)) (ns np : Z) (idxs : list nat)
    (w : World Img) (ph : PyVal) (tgt : list (list spec_float)) :
  y L = Some ph -> target L = Some tgt ->
  (forall x, tf_model x <> []) ->
  (forall p x s d, (p, x) ∈ dataset ->
     open_error w (os_path_join (out_folder args) (sample_name p name s d))
     = None) ->
  Forall (fun i => (i < length dataset)%nat) idxs -> idxs <> [] ->
  (0 <= np)%Z ->
  exists ns' np' w',
    step args L name op params dataset (ns, np) idxs w = (Ok (ns', np'), w')
    /\ (0 <= np')%Z /\ open_error w' = open_error w.
Proof.
  intros Hy Ht Hne Hw Hr Hi Hnp. unfold batch_step, bind, lift.
  destruct (fetch_in_range Img dataset idxs Hr) as (ps & xs & Hf).
  rewrite Hf, Hy, Ht. cbn [read_local].
  destruct (fetch_entries _ _ _ _ Hf) as [Hps Hxs].
  assert (Hlen : (0 < length xs)%nat).
  { rewrite Hxs, length_map.
    destruct idxs as [|i rest]; [contradiction|].
    apply Forall_cons in Hr as [Hi0 _].
    destruct (lookup_lt_is_Some_2 dataset i Hi0) as [e He].
    unfold batch_entries. cbn [omap list_omap]. rewrite He. cbn. lia. }
  destruct (argmax_rows_total xs Hne) as (src & Hs). rewrite Hs.
  destruct (argmax_rows_total
              (map (attack_generate op params tgt) xs) Hne) as (dst & Hd).
  rewrite Hd. unfold int_truediv.
  destruct (Z.eqb_spec (np + Z.of_nat (length xs)) 0) as [H0|_]; [lia|].
  unfold set_postfix.
  match goal with
  | |- context [save_samples Img ?o ?n ?p ?a ?s ?d ?w0] =>
      destruct (save_samples_total o n p a s d w0) as (w1 & Hsv & Ho);
      [|rewrite Hsv]
  end.
  { intros p s d Hp. cbn [open_error].
    apply np_mask_elem in Hp. rewrite Hps in Hp.
    apply list_elem_of_fmap in Hp as ([p' x] & -> & He).
    apply (Hw p' x). apply (batch_entries_elem _ _ _ He). }
  unfold ret. eexists _, _, _. split; [reflexivity|].
  split; [lia | exact Ho].
Qed.

Lemma batch_loop_total (args : Namespace) (L : Locals) (name : string)
    (op : AttackOp) (params : gmap string PyVal)
    (dataset : list (string * Img)) (ph : PyVal)
    (tgt : list (list spec_float)) (batches : list (list nat)) :
  y L = Some ph -> target L = Some tgt ->
  (forall x, tf_model x <> []) ->
  Forall (fun b => b <> []
                   /\ Forall (fun i => (i < length dataset)%nat) b) batches ->
  forall (ns np : Z) (w : World Img), (0 <= np)%Z ->
  (forall p x s d, (p, x) ∈ dataset ->
     open_error w (os_path_join (out_folder args) (sample_name p name s d))
     = None) ->
  exists cnt' w',
    loop args L name op params dataset (ns, np) batches w = (Ok cnt', w').
Proof.
  intros Hy Ht Hne Hb. induction Hb as [|b rest [Hb0 Hbr] _ IH];
    intros ns np w Hnp Hw.
  - eexists _, _. reflexivity.
  - cbn [batch_loop]. unfold bind at 1.
    destruct (batch_step_total args L name op params dataset ns np b w ph tgt
                Hy Ht Hne Hw Hbr Hb0 Hnp)
      as (ns' & np' & w' & Hstep & Hnp' & Ho).
    rewrite Hstep. apply (IH ns' np' w' Hnp').
    intros p x s d Hin. rewrite Ho. apply (Hw p x s d Hin).
Qed.

Lemma batch_images_all (dataset pre : list (string * Img)) :
  batch_images Img (pre ++ dataset)%list (seq (length pre) (length dataset))
  = map snd dataset.
Proof.
  revert pre. induction dataset as [|e ds IH]; intros pre.
  - reflexivity.
  - cbn [length seq]. unfold batch_images. cbn [omap list_omap].
    rewrite list_lookup_middle by reflexivity. cbn [fmap option_fmap option_map].
    cbn [map]. f_equal.
    specialize (IH (pre ++ [e])%list).
    rewrite <- app_assoc, length_app in IH. cbn [app length] in IH.
    rewrite Nat.add_1_r in IH. exact IH.
Qed.

Lemma batch_images_concat (dataset : list (string * Img))
    (batches : list (list nat)) :
  concat (map (batch_images Img dataset) batches)
  = batch_images Img dataset (concat batches).
Proof.
  induction batches as [|b rest IH]; [reflexivity|].
  cbn [map concat]. rewrite IH. unfold batch_images.
  rewrite omap_app. reflexivity.
Qed.

(** X14. lbfgs is the attack that runs: with a positive batch size, a
    budget that converts to a float, a draw inside [0, 1000), a
    classifier that returns at least one logit per image and an output
    folder in which the archive of every image of the folder can be
    opened for writing, whatever its two classes, the run ends normally,
    shows one rate per batch, and the last rate shown is the share of
    flipped images among all images of the folder. *)
Theorem lbfgs_run_completes (a : Argv) (args : Namespace) (v : spec_float)
    (w : World Img) :
  argv_attack a = Some "lbfgs" ->
  parse_args cuda_available a = Ok args ->
  int_div_float (eps args) (F64.of_Z 255) = Ok v ->
  (0 < batch_size args)%Z ->
  (0 <= np_random_randint 1000 < 1000)%Z ->
  (forall x, tf_model x <> []) ->
  (forall p x s d, (p, x) ∈ ImageDataset (image_folder args) ->
     open_error w (os_path_join (out_folder args)
                                (sample_name p "lbfgs" s d)) = None) ->
  let dataset := ImageDataset (image_folder args) in
  let tgt := [one_hot_row 1000 (Z.to_nat (np_random_randint 1000))] in
  let params :=
    dict_merge {[ "y_target" := VPlaceholder [1%nat; 1000%nat] ]}
               common_params in
  exists (w' : World Img) (batches : list (list nat))
         (shown : list spec_float),
    run_script a w = (Ok tt, w')
    /\ DataLoader torch_randperm (length dataset) false (batch_size args)
       = Ok batches
    /\ postfix w' = (rev shown ++ postfix w)%list
    /\ length shown = length batches
    /\ (dataset <> [] ->
        shown !! (length batches - 1)%nat
        = Some (success_rate Img tf_model attack_generate LBFGS params tgt
                  (map snd dataset))).
Proof.
  intros Hs Hp Hv Hbs Hd Hne Hw dataset tgt params.
  destruct (parse_args_attack _ _ _ _ Hs Hp) as [Ha Hin].
  destruct (DataLoader torch_randperm (length dataset) false
              (batch_size args)) as [batches|e] eqn:Hdl.
  2: { unfold DataLoader in Hdl.
       destruct (Z.leb_spec (batch_size args) 0); [lia | discriminate]. }
  destruct (DataLoader_sequential _ _ _ _ Hdl) as [Hcat Hnonempty].
  assert (HL : select_attack (set_ord args (resolve_ord (ord args))) v
                 (F64.div (F64.of_Z 20) (F64.of_Z 255))
                 (np_random_randint 1000)
               = Ok {| attack_name := "";
                       attack_op := Some LBFGS;
                       attack_params := Some params;
                       target := Some tgt;
                       y := Some (VPlaceholder [1%nat; 1000%nat]) |}).
  { unfold select_attack. cbn [attack set_ord]. rewrite Ha. select_branch.
    rewrite np_setitem0_one_hot by exact Hd. rewrite shape2_one_hot.
    reflexivity. }
  set (L := {| attack_name := ""; attack_op := Some LBFGS;
               attack_params := Some params; target := Some tgt;
               y := Some (VPlaceholder [1%nat; 1000%nat]) |}) in HL.
  assert (Hrange : Forall (fun b => b <> []
                     /\ Forall (fun i => (i < length dataset)%nat) b) batches).
  { apply Forall_forall. intros b Hb. split.
    - exact (proj1 (Forall_forall _ _) Hnonempty b Hb).
    - apply Forall_forall. intros i Hi.
      assert (Hin' : i ∈ seq 0 (length dataset)).
      { rewrite <- Hcat. apply list_elem_of_In, in_concat.
        exists b. split; apply list_elem_of_In; assumption. }
      apply elem_of_seq in Hin'. lia. }
  destruct (batch_loop_total (set_ord args (resolve_ord (ord args))) L
              "lbfgs" LBFGS params dataset _ tgt batches eq_refl eq_refl
              Hne Hrange 0%Z 0%Z w ltac:(lia) Hw) as (cnt' & w' & Hloop).
  destruct (batch_loop_ok Img tf_model attack_generate
              (set_ord args (resolve_ord (ord args))) L "lbfgs" LBFGS params
              dataset tgt batches eq_refl 0%Z 0%Z w w' cnt' Hloop)
    as (_ & shown & Hshown & Hlen & Hk).
  exists w', batches, shown.
  split.
  { unfold script, bind, lift. rewrite Hp. unfold main, bind, lift.
    fold dataset. rewrite Hdl. rewrite (attack_construction_eq _ _ _ Hv).
    rewrite HL. cbn [attack set_ord]. rewrite Ha.
    cbn [attack_add attack_name L attack_params attack_op read_local].
    change ("lbfgs" ++ "") with "lbfgs". rewrite Hloop. reflexivity. }
  split; [reflexivity|]. split; [exact Hshown|]. split; [exact Hlen|].
  intros Hds.
  assert (Hb : (0 < length batches)%nat).
  { destruct batches; [|cbn; lia]. cbn in Hcat.
    destruct dataset; [contradiction | discriminate]. }
  rewrite (Hk (length batches - 1)%nat) by lia.
  replace (S (length batches - 1)) with (length batches) by lia.
  rewrite seen_all, batch_images_concat, Hcat.
  pose proof (batch_images_all dataset []) as Hall.
  cbn [app length] in Hall. rewrite Hall. unfold success_rate.
  rewrite !Z.add_0_l. reflexivity.
Qed.

(** X15. The two counters of the loop: over any completed run of
    batches neither decreases, and [n_success] grows by no more than
    [n_processed] does, so counters that start at 0 and 0 end with
    [0 <= n_success <= n_processed]. *)
Theorem counters_bounded (args : Namespace) (L : Locals) (name : string)
    (op : AttackOp) (params : gmap string PyVal)
    (dataset : list (string * Img)) (tgt : list (list spec_float))
    (batches : list (list nat)) (ns np ns' np' : Z) (w w' : World Img) :
  target L = Some tgt ->
  loop args L name op params dataset (ns, np) batches w
  = (Ok (ns', np'), w') ->
  (ns <= ns')%Z /\ (np <= np')%Z /\ (ns' - ns <= np' - np)%Z.
Proof.
  intros Ht Hloop.
  destruct (batch_loop_ok Img tf_model attack_generate args L name op params
              dataset tgt batches Ht ns np w w' (ns', np') Hloop)
    as (Hcnt & _).
  injection Hcnt as -> ->. unfold n_flipped.
  pose proof (List.filter_length_le
                (flipped Img tf_model attack_generate op params tgt)
                (seen Img dataset batches (length batches))).
  lia.
Qed.

End WrittenFacts.

(* ===================================================================== *)
(** ** The further facts at concrete inputs *)
(* ===================================================================== *)

(** Without the output folder the lbfgs run on the three-image folder,
    in batches of two, shows the rate of its first batch and then ends in
    [FileNotFoundError] at the first archive, leaving no file. *)
Example lbfgs_run_missing_folder :
  let r := script nat Sample.dataset Sample.sequential (fun _ => 0%Z) false
                  Sample.model Sample.generate
                  (Sample.argv (Some "lbfgs") 2) no_folder_world in
  fst r = Raise FileNotFoundError
  /\ fs (snd r) = ∅
  /\ postfix (snd r) = [F64.div (F64.of_Z 1) (F64.of_Z 2)].
Proof. vm_compute. repeat split; reflexivity. Qed.

Lemma imshow_values_in_unit_range_witness :
  Forall (Forall (Forall (fun v =>
     is_nan v = true
     \/ (fle (F64.of_Z 0) v = true /\ fle v (F64.of_Z 1) = true))))
    (fig_image SampleMore.figure).
Proof.
  apply (imshow_values_in_unit_range SampleMore.tensor (Some "sample")).
  vm_compute. reflexivity.
Defined.

Lemma imshow_inverts_normalize_witness :
  exists r g b qr qg qb,
    imshow (map (fun v => [[v]])
                (Normalize imagenet_mean imagenet_std
                   [ToTensor_level 0; ToTensor_level 128; ToTensor_level 255]))
           None
    = Ok {| fig_image := [[[r; g; b]]]; fig_title := None |}
    /\ SF2Q r = Some qr /\ SF2Q g = Some qg /\ SF2Q b = Some qb
    /\ (Qabs (qr - inject_Z 0 / 255) <= Qpower 2 (-23))%Q
    /\ (Qabs (qg - inject_Z 128 / 255) <= Qpower 2 (-23))%Q
    /\ (Qabs (qb - inject_Z 255 / 255) <= Qpower 2 (-23))%Q.
Proof.
  apply (imshow_inverts_normalize 0 128 255 None); lia.
Defined.

Lemma imshow_channels_witness :
  (exists fig,
     imshow SampleMore.tensor None = Ok fig
     /\ fig_title fig = None
     /\ length (fig_image fig) = 1%nat
     /\ Forall (fun row => length row = 2%nat
                           /\ Forall (fun px => length px = 3%nat) row)
               (fig_image fig))
  /\ imshow [[]; []; []] (Some "sample") = Raise ValueError
  /\ imshow [[[F64.zero]]; [[F64.one]]] None = Raise ValueError.
Proof.
  split; [|split].
  - apply (proj1 (imshow_channels SampleMore.tensor 3 1 2 None eq_refl
                    ltac:(repeat constructor))).
    + right. reflexivity.
    + lia.
    + lia.
  - apply (proj1 (proj2 (imshow_channels [[]; []; []] 3 0 2 (Some "sample")
                           eq_refl ltac:(repeat constructor)))).
    + right. reflexivity.
    + left. reflexivity.
  - apply (proj2 (proj2 (imshow_channels [[[F64.zero]]; [[F64.one]]] 2 1 1
                           None eq_refl ltac:(repeat constructor)))).
    + discriminate.
    + discriminate.
Defined.

Lemma sample_name_inj_witness : 2%nat = 2%nat /\ 0%nat = 0%nat.
Proof.
  exact (sample_name_inj "b.jpg" "lbfgs" 2 0 2 0 eq_refl).
Defined.

Lemma output_path_absolute_or_under_out_witness :
  os_path_join "out" (sample_name "/data/a.jpg" "lbfgs" 1 2)
  = sample_name "/data/a.jpg" "lbfgs" 1 2
  /\ os_path_join "out" (sample_name "a.jpg" "lbfgs" 1 2)
     = "out" ++ "/" ++ sample_name "a.jpg" "lbfgs" 1 2.
Proof.
  split.
  - apply (proj1 (output_path_absolute_or_under_out
                    "out" "/data/a.jpg" "lbfgs" 1 2)). reflexivity.
  - apply (proj2 (output_path_absolute_or_under_out
                    "out" "a.jpg" "lbfgs" 1 2)). reflexivity.
Defined.

Lemma ord_is_inf_1_or_2_witness :
  parse_args false
    {| argv_image_folder := "imgs"; argv_out_folder := "out";
       argv_batch_size := None; argv_attack := Some "fgsm";
       argv_eps := None; argv_ord := Some 0%Z |}
  = Raise (SystemExit 2).
Proof.
  apply (proj1 (ord_is_inf_1_or_2 false
                  {| argv_image_folder := "imgs"; argv_out_folder := "out";
                     argv_batch_size := None; argv_attack := Some "fgsm";
                     argv_eps := None; argv_ord := Some 0%Z |}) 0%Z).
  - reflexivity.
  - intros H. apply (bool_decide_pack _) in H. vm_compute in H. exact H.
Defined.

Lemma attack_name_table_witness :
  exists L,
    select_attack SampleMore.iter_args F64.one F64.one 0 = Ok L
    /\ attack_add (attack SampleMore.iter_args) (attack_name L)
       = Ok "pgd_L2_eps8_epsi20_i10".
Proof.
  assert (Hin : "pgd" ∈ attack_choices)
    by (apply (bool_decide_unpack _); vm_compute; exact I).
  exact (attack_name_table SampleMore.iter_args "pgd" F64.one F64.one 0%Z
           Hin eq_refl ltac:(lia)).
Defined.

Lemma iter_params_fixed_witness :
  exists args' L m,
    attack_construction SampleMore.iter_args 0 = Ok (args', L)
    /\ attack_params L = Some m
    /\ m !! "eps_iter" = Some (VFloat (F64.div (F64.of_Z 20) (F64.of_Z 255)))
    /\ m !! "nb_iter" = Some (VInt 10)
    /\ m !! "eps" = Some (VFloat (F64.div (F64.of_Z 8) (F64.of_Z 255))).
Proof.
  assert (Hin : "pgd" ∈ ["iter"; "m-iter"; "pgd"])
    by (apply (bool_decide_unpack _); vm_compute; exact I).
  apply (iter_params_fixed SampleMore.iter_args "pgd" 0%Z _ Hin eq_refl).
  vm_compute. reflexivity.
Defined.

Lemma np_argmax_in_range_witness :
  exists i, np_argmax (Sample.model 2) = Ok i
            /\ (i < length (Sample.model 2))%nat.
Proof.
  apply (proj2 (np_argmax_in_range (Sample.model 2))). discriminate.
Defined.

(** The lbfgs loop over the three sample images: image 2 moves from
    class 2 to class 0 and has its archive. *)
Lemma loop_saves_exactly_flipped_witness :
  is_Some (fs (snd (Sample.lbfgs_loop 0))
           !! os_path_join "out" (sample_name "b.jpg" "lbfgs" 2 0)).
Proof.
  assert (Hrun : Sample.lbfgs_loop 0
                 = (Ok (1, 3)%Z, snd (Sample.lbfgs_loop 0)))
    by (vm_compute; reflexivity).
  apply (proj2 (loop_saves_exactly_flipped nat Sample.model Sample.generate
                  Sample.lbfgs_args (Sample.lbfgs_locals 0) "lbfgs" LBFGS
                  Sample.lbfgs_params (Sample.dataset "imgs")
                  (Sample.lbfgs_target 0) [[0%nat; 1%nat]; [2%nat]]
                  (0, 0)%Z (1, 3)%Z empty_world (snd (Sample.lbfgs_loop 0))
                  eq_refl Hrun) "b.jpg" 2%nat 2%nat 0%nat).
  - apply (bool_decide_unpack _). vm_compute. exact I.
  - vm_compute. reflexivity.
  - vm_compute. reflexivity.
  - discriminate.
Defined.

(** An lbfgs run started in a world that already holds an archive. *)
Lemma run_keeps_files_witness :
  is_Some (fs (snd (script nat Sample.dataset Sample.sequential
                           (fun _ => 0%Z) false Sample.model Sample.generate
                           (Sample.argv (Some "lbfgs") 2)
                           SampleMore.old_world))
           !! "out/keep.npz").
Proof.
  apply (run_keeps_files nat Sample.dataset Sample.sequential
           (fun _ => 0%Z) false Sample.model Sample.generate
           (Sample.argv (Some "lbfgs") 2) SampleMore.old_world
           "out/keep.npz").
  vm_compute. eexists. reflexivity.
Defined.

(** fgsm on a folder without images. *)
Lemma empty_folder_run_is_clean_witness :
  script nat SampleMore.no_images Sample.sequential (fun _ => 0%Z) false
         Sample.model Sample.generate (Sample.argv (Some "fgsm") 2)
         empty_world
  = (Ok tt, empty_world).
Proof.
  eapply (empty_folder_run_is_clean nat SampleMore.no_images
            Sample.sequential (fun _ => 0%Z) false Sample.model
            Sample.generate (Sample.argv (Some "fgsm") 2) "fgsm").
  - reflexivity.
  - vm_compute. reflexivity.
  - vm_compute. reflexivity.
  - reflexivity.
  - lia.
  - reflexivity.
Defined.

(** lbfgs on the three sample images in batches of two: two rates are
    shown, the last one for the whole folder. *)
Lemma lbfgs_run_completes_witness :
  exists (w' : World nat) (shown : list spec_float),
    Sample.run Sample.sequential 0 (Sample.argv (Some "lbfgs") 2)
    = (Ok tt, w')
    /\ postfix w' = (rev shown ++ [])%list
    /\ length shown = 2%nat.
Proof.
  destruct (lbfgs_run_completes nat Sample.dataset Sample.sequential
              (fun _ => 0%Z) false Sample.model Sample.generate
              (Sample.argv (Some "lbfgs") 2)
              {| image_folder := "imgs"; out_folder := "out";
                 batch_size := 2; attack := AttackStr "lbfgs"; eps := 20;
                 ord := OrdInt (-1); device := "cpu" |}
              (F64.div (F64.of_Z 20) (F64.of_Z 255)) empty_world
              eq_refl ltac:(vm_compute; reflexivity)
              ltac:(vm_compute; reflexivity) ltac:(reflexivity)
              ltac:(lia) ltac:(intros x; discriminate)
              ltac:(intros p x s d _; reflexivity))
    as (w' & batches & shown & Hrun & Hdl & Hpost & Hlen & _).
  exists w', shown. split; [exact Hrun|]. split; [exact Hpost|].
  rewrite Hlen. vm_compute in Hdl. injection Hdl as <-. reflexivity.
Defined.

(** Five indices in batches of two. *)
Lemma DataLoader_batch_sizes_witness :
  exists batches,
    DataLoader Sample.sequential 5 false 2 = Ok batches
    /\ concat batches = seq 0 5
    /\ Forall (fun b => (1 <= Z.of_nat (length b) <= 2)%Z) batches.
Proof.
  destruct (proj2 (DataLoader_batch_sizes Sample.sequential 5 2)
              ltac:(lia)) as (batches & Hdl & Hcat & Hf & _).
  exists batches. split; [exact Hdl|]. split; [exact Hcat | exact Hf].
Defined.

(** The counters of the sample lbfgs loop. *)
Lemma counters_bounded_witness :
  (0 <= 1)%Z /\ (0 <= 3)%Z /\ (1 - 0 <= 3 - 0)%Z.
Proof.
  assert (Hrun : Sample.lbfgs_loop 0
                 = (Ok (1, 3)%Z, snd (Sample.lbfgs_loop 0)))
    by (vm_compute; reflexivity).
  exact (counters_bounded nat Sample.model Sample.generate
           Sample.lbfgs_args (Sample.lbfgs_locals 0) "lbfgs" LBFGS
           Sample.lbfgs_params (Sample.dataset "imgs")
           (Sample.lbfgs_target 0) [[0%nat; 1%nat]; [2%nat]]
           0%Z 0%Z 1%Z 3%Z empty_world (snd (Sample.lbfgs_loop 0))
           eq_refl Hrun).
Defined.
